(** * htmrt-automator: the campaign build pipeline of [affiliate6.py]

    A shallow embedding of the data classes, the targeting spec builder, the
    media uploader and the campaign build pipeline, followed by the properties
    of the specification that were checked against it.

    Conventions.
    - A Python [dict] whose keys vary (the targeting spec, [product.urls], the
      [media_urls] argument) is a [gmap string _]; a [dict] literal with a
      fixed set of keys (the request bodies, [media_ids]) is a record whose
      fields carry the keys' names.
    - A field annotated [List[...] = None] or [Optional[...]] is an [option];
      Python truthiness of such a field is [truthy]/[str_truthy].
    - [float] is IEEE binary64, as in CPython.
    - Remote calls, the clock and the process environment are parameters of
      the development ([Environ]); every remote call is recorded, together
      with its outcome, in the build's event trace. *)

From Stdlib Require Import ZArith String List.
From Stdlib Require Import PrimFloat.
From stdpp Require Import base option list strings gmap.

Local Open Scope string_scope.
Set Warnings "-clear-no-such-hyp".

(** ** Python values that end up inside request bodies *)

#[warnings="-register-all"]
Inductive value : Type :=
| VNone
| VInt (n : Z)
| VStr (s : string)
| VList (vs : list value)
| VDict (kvs : list (string * value)).

(** [bool(x)] for an optional list: [None] and [[]] are falsy. *)
Definition truthy {A} (x : option (list A)) : bool :=
  match x with
  | Some (_ :: _) => true
  | _ => false
  end.

(** [bool(x)] for an optional string: [None] and [''] are falsy. *)
Definition str_truthy (x : option string) : bool :=
  match x with
  | Some (String _ _) => true
  | _ => false
  end.

(** The elements a [for] or a comprehension visits once the value is known to
    be a list. *)
Definition elements_of {A} (x : option (list A)) : list A := default [] x.

Definition opt_value {A} (inj : A -> value) (x : option (list A)) : value :=
  match x with
  | None => VNone
  | Some l => VList (map inj l)
  end.

(** ** Enumerations ([class X(str, Enum)]) and their [.value] *)

Module CampaignObjective.
Inductive t :=
| OUTCOME_SALES | OUTCOME_LEADS | OUTCOME_AWARENESS
| OUTCOME_TRAFFIC | OUTCOME_ENGAGEMENT | REACH.

Definition value_of (o : t) : string :=
  match o with
  | OUTCOME_SALES => "OUTCOME_SALES"
  | OUTCOME_LEADS => "OUTCOME_LEADS"
  | OUTCOME_AWARENESS => "OUTCOME_AWARENESS"
  | OUTCOME_TRAFFIC => "OUTCOME_TRAFFIC"
  | OUTCOME_ENGAGEMENT => "OUTCOME_ENGAGEMENT"
  | REACH => "REACH"
  end.
End CampaignObjective.

Module OptimizationGoal.
Inductive t := REACH | IMPRESSIONS | LINK_CLICKS | LANDING_PAGE_VIEWS | VALUE.

Definition value_of (g : t) : string :=
  match g with
  | REACH => "REACH"
  | IMPRESSIONS => "IMPRESSIONS"
  | LINK_CLICKS => "LINK_CLICKS"
  | LANDING_PAGE_VIEWS => "LANDING_PAGE_VIEWS"
  | VALUE => "VALUE"
  end.
End OptimizationGoal.

Module BidStrategy.
Inductive t := LOWEST_COST_WITHOUT_CAP | LOWEST_COST_WITH_BID_CAP | COST_CAP.

Definition value_of (b : t) : string :=
  match b with
  | LOWEST_COST_WITHOUT_CAP => "LOWEST_COST_WITHOUT_CAP"
  | LOWEST_COST_WITH_BID_CAP => "LOWEST_COST_WITH_BID_CAP"
  | COST_CAP => "COST_CAP"
  end.
End BidStrategy.

(** ** Data classes *)

Module Placement.
Record t := mk {
  platform : string;
  position : string;
  device_types : list string;
  enabled : bool;
}.
End Placement.

Module AudienceTargeting.
Record t := mk {
  age_range : Z * Z;
  genders : option (list Z);
  languages : option (list string);
  locations : option (list string);
  interests : option (list string);
  behaviors : option (list string);
  demographics : option (list string);
  excluded_interests : option (list string);
  custom_audiences : option (list string);
  lookalike_audiences : option (list string);
  excluded_custom_audiences : option (list string);
}.

(** [AudienceTargeting()] with every default. *)
Definition default : t :=
  mk (18, 65)%Z None None None None None None None None None None.
End AudienceTargeting.

Module AdCreative.
Record t := mk {
  primary_text : string;
  headline : string;
  description : string;
  call_to_action : string;
  image_hash : option string;
  video_id : option string;
  link_destination : option string;
  display_link : option string;
}.

Definition opt_str (x : option string) : value :=
  match x with
  | None => VNone
  | Some s => VStr s
  end.

(** [getattr(creative, attr)]: the data class defines exactly these eight
    attributes; any other name is an [AttributeError] ([None] here). *)
Definition getattr (c : t) (attr : string) : option value :=
  if decide (attr = "primary_text") then Some (VStr (primary_text c))
  else if decide (attr = "headline") then Some (VStr (headline c))
  else if decide (attr = "description") then Some (VStr (description c))
  else if decide (attr = "call_to_action") then Some (VStr (call_to_action c))
  else if decide (attr = "image_hash") then Some (opt_str (image_hash c))
  else if decide (attr = "video_id") then Some (opt_str (video_id c))
  else if decide (attr = "link_destination") then Some (opt_str (link_destination c))
  else if decide (attr = "display_link") then Some (opt_str (display_link c))
  else None.
End AdCreative.

Module AdSetParameters.
Record t := mk {
  name : string;
  optimization_goal : OptimizationGoal.t;
  billing_event : string;
  bid_strategy : BidStrategy.t;
  targeting : AudienceTargeting.t;
  daily_budget : float;
  lifetime_budget : option float;
  start_time : option string;
  end_time : option string;
  schedule : option (list value);
  placements : option (list Placement.t);
}.
End AdSetParameters.

Module FacebookCampaignParameters.
Record t := mk {
  name : string;
  objective : CampaignObjective.t;
  buying_type : string;
  status : string;
  daily_budget : float;
  bid_strategy : BidStrategy.t;
  cold_audience : option AudienceTargeting.t;
  warm_audience : option AudienceTargeting.t;
  hot_audience : option AudienceTargeting.t;
  placements : option (list Placement.t);
  conversion_tracking : option value;
  pixel_id : option string;
  ad_sets : option (list AdSetParameters.t);
  ad_creatives : option (list AdCreative.t);
  special_ad_categories : option (list string);
  campaign_rules : option value;
}.
End FacebookCampaignParameters.

Module HotmartProduct.
Record t := mk {
  name : string;
  base_url : string;
  affiliate_id : string;
  price : float;
  description : string;
  target_audience : gmap string (list string);
  images : list string;
  videos : option (list string);
  testimonials : option (list value);
  urls : gmap string string;
}.

(** [__post_init__]: (re)binds [self.urls] from [self.base_url]. *)
Definition __post_init__ (self : t) : t :=
  mk (name self) (base_url self) (affiliate_id self) (price self)
     (description self) (target_audience self) (images self) (videos self)
     (testimonials self)
     (<["order_bump" := base_url self +:+ "?ap=25f0"]>
      (<["checkout" := base_url self +:+ "?ap=838e"]>
       (<["product" := base_url self +:+ "?dp=1"]>
        {["sales" := base_url self]}))).

(** The generated [__init__]: stores the nine declared fields, then runs
    [__post_init__]; before that call the object has no [urls] yet. *)
Definition new (name base_url affiliate_id : string) (price : float)
    (description : string) (target_audience : gmap string (list string))
    (images : list string) (videos : option (list string))
    (testimonials : option (list value)) : t :=
  __post_init__
    (mk name base_url affiliate_id price description target_audience
        images videos testimonials ∅).
End HotmartProduct.

(** ** Targeting spec builder *)

(** [[{'id': v} for v in l]] *)
Definition id_entries (l : list string) : value :=
  VList (map (fun v => VDict [("id", VStr v)]) l).

Definition _build_targeting_spec (targeting : AudienceTargeting.t)
    : gmap string value :=
  let spec : gmap string value :=
    <["geo_locations" :=
        VDict [("countries", opt_value VStr (AudienceTargeting.locations targeting))]]>
    (<["genders" := opt_value VInt (AudienceTargeting.genders targeting)]>
     (<["age_max" := VInt (snd (AudienceTargeting.age_range targeting))]>
      {["age_min" := VInt (fst (AudienceTargeting.age_range targeting))]})) in
  let spec :=
    if truthy (AudienceTargeting.interests targeting)
    then <["interests" := id_entries (elements_of (AudienceTargeting.interests targeting))]> spec
    else spec in
  let spec :=
    if truthy (AudienceTargeting.behaviors targeting)
    then <["behaviors" := id_entries (elements_of (AudienceTargeting.behaviors targeting))]> spec
    else spec in
  let spec :=
    if truthy (AudienceTargeting.custom_audiences targeting)
    then <["custom_audiences" :=
             id_entries (elements_of (AudienceTargeting.custom_audiences targeting))]> spec
    else spec in
  let spec :=
    if truthy (AudienceTargeting.excluded_custom_audiences targeting)
    then <["excluded_custom_audiences" :=
             id_entries (elements_of (AudienceTargeting.excluded_custom_audiences targeting))]> spec
    else spec in
  spec.

(** ** Request bodies (the [params={...}] literals) *)

Module CampaignCreateRequest.
Record t := mk {
  name : string;
  objective : string;
  status : string;
  special_ad_categories : list string;
  daily_budget : float;
  bid_strategy : string;
  buying_type : string;
}.
End CampaignCreateRequest.

Module AdSetCreateRequest.
Record t := mk {
  name : string;
  campaign_id : string;
  daily_budget : float;
  optimization_goal : string;
  billing_event : string;
  bid_strategy : string;
  targeting : gmap string value;
  start_time : option string;
  end_time : option string;
  status : string;
}.
End AdSetCreateRequest.

Module LinkData.
Record t := mk {
  link : string;
  message : string;
  headline : string;
  description : string;
  image_hash : string;
  call_to_action : string;   (* {'type': ...} *)
}.
End LinkData.

Module VideoData.
Record t := mk {
  video_id : string;
  call_to_action : string;   (* {'type': ...} *)
  image_url : value;
  title : string;
  message : string;
  description : string;
  link_description : string;
}.
End VideoData.

(** ['object_story_spec'] holds ['page_id'] and either ['link_data'] or
    ['video_data']. *)
Inductive story_data :=
| link_data (d : LinkData.t)
| video_data (d : VideoData.t).

Module CreativeCreateRequest.
Record t := mk {
  name : string;
  page_id : option string;
  story : story_data;
}.
End CreativeCreateRequest.

Module AdCreateRequest.
Record t := mk {
  name : string;
  adset_id : string;
  creative_id : string;   (* {'creative_id': ...} *)
  status : string;
}.
End AdCreateRequest.

(** [media_ids = {'images': [...], 'videos': [...]}] *)
Module MediaIds.
Record t := mk {
  images : list string;
  videos : list string;
}.
End MediaIds.

(** ** The outside world *)

(** Every call that leaves the process. *)
Inductive Call :=
| http_get (url : string)
| adimage_remote_create (parent_id : string) (bytes : string)
| advideo_remote_create (parent_id : string) (file_url : string)
| account_create_campaign (account : string) (req : CampaignCreateRequest.t)
| adset_create (parent_id : string) (req : AdSetCreateRequest.t)
| account_create_ad_creative (account : string) (req : CreativeCreateRequest.t)
| ad_create (parent_id : string) (req : AdCreateRequest.t).

(** What came back: the payload the code reads from the returned object (the
    body of the HTTP response, the image's ['hash'], the video's ['id'], the
    created object's id), or an exception with its message. *)
Inductive Response :=
| Returned (payload : string)
| Raised (msg : string).

Definition Event : Type := Call * Response.

(** The remote platform, the clock and [os.environ].  The platform and the
    clock may answer differently as the build proceeds, so both see the trace
    so far. *)
Record Environ := mkEnviron {
  respond : list Event -> Call -> Response;
  today : list Event -> string;              (* datetime.now().strftime('%Y%m%d') *)
  environ : string -> option string;         (* os.getenv *)
}.

Inductive Exn :=
| RemoteError (msg : string)
| AttributeError (cls attr : string)
| KeyError (key : string)
| TypeError (msg : string).

Definition exn_str (e : Exn) : string :=
  match e with
  | RemoteError msg => msg
  | AttributeError cls attr =>
      "'" +:+ cls +:+ "' object has no attribute '" +:+ attr +:+ "'"
  | KeyError key => "'" +:+ key +:+ "'"
  | TypeError msg => msg
  end.

(** The state a build runs in: the product object every [product] reference
    points to, the trace of remote calls, and what was printed. *)
Record State := mkState {
  product_obj : HotmartProduct.t;
  events : list Event;
  stdout : list string;
}.

Definition initial_state (product : HotmartProduct.t) : State :=
  mkState product [] [].

Inductive Outcome (A : Type) :=
| Ok (a : A)
| Raise (e : Exn).
Arguments Ok {A} a.
Arguments Raise {A} e.

(** ** The monad of pipeline code: state and exceptions *)

Definition M (A : Type) : Type := State -> State * Outcome A.

#[global] Instance M_ret : MRet M := fun A a s => (s, Ok a).

#[global] Instance M_bind : MBind M := fun A B f m s =>
  match m s with
  | (s', Ok a) => f a s'
  | (s', Raise e) => (s', Raise e)
  end.

Definition raise {A} (e : Exn) : M A := fun s => (s, Raise e).

(** [try: body / except Exception as e: handler e] *)
Definition try_except {A} (body : M A) (handler : Exn -> M A) : M A := fun s =>
  match body s with
  | (s', Ok a) => (s', Ok a)
  | (s', Raise e) => handler e s'
  end.

Definition print (line : string) : M unit := fun s =>
  (mkState (product_obj s) (events s) (stdout s ++ [line]), Ok tt).

(** Dereferences the [product] argument. *)
Definition get_product : M HotmartProduct.t := fun s => (s, Ok (product_obj s)).

(** [for x in xs: body x] *)
Fixpoint for_each {A} (xs : list A) (body : A -> M unit) : M unit :=
  match xs with
  | [] => mret tt
  | x :: rest => body x ;; for_each rest body
  end.

(** A [for] loop that appends to one local list. *)
Fixpoint for_fold {A B} (xs : list A) (acc : B) (body : B -> A -> M B) : M B :=
  match xs with
  | [] => mret acc
  | x :: rest => acc' ← body acc x; for_fold rest acc' body
  end.

(** Iterating a value that may be [None]. *)
Definition iter {A} (x : option (list A)) : M (list A) :=
  match x with
  | Some l => mret l
  | None => raise (TypeError "'NoneType' object is not iterable")
  end.

(** [d[key]] *)
Definition getitem (d : gmap string string) (key : string) : M string :=
  match d !! key with
  | Some v => mret v
  | None => raise (KeyError key)
  end.

(** [creative.attr] *)
Definition creative_attr (creative : AdCreative.t) (attr : string) : M value :=
  match AdCreative.getattr creative attr with
  | Some v => mret v
  | None => raise (AttributeError "AdCreative" attr)
  end.

(** ** [MediaManager] and [FacebookCampaignManager] *)

Section Pipeline.
(** The world the build talks to, and the id of the ad account the manager
    was constructed with ([self.ad_account.get_id()]). *)
Variable env : Environ.
Variable ad_account : string.

(** Performs a remote call and records it with its outcome. *)
Definition remote (c : Call) : M string := fun s =>
  let r := respond env (events s) c in
  let s' := mkState (product_obj s) (events s ++ [(c, r)]) (stdout s) in
  match r with
  | Returned payload => (s', Ok payload)
  | Raised msg => (s', Raise (RemoteError msg))
  end.

Definition strftime_now : M string := fun s => (s, Ok (today env (events s))).

Definition getenv (key : string) : option string := environ env key.

(** *** MediaManager *)

Definition _upload_image (image_url : string) : M (option string) :=
  try_except
    (response ← remote (http_get image_url);
     image_hash ← remote (adimage_remote_create ad_account response);
     mret (Some image_hash))
    (fun e =>
       print ("Error uploading image " +:+ image_url +:+ ": " +:+ exn_str e);;
       mret None).

Definition _upload_video (video_url : string) : M (option string) :=
  try_except
    (video ← remote (advideo_remote_create ad_account video_url);
     mret (Some video))
    (fun e =>
       print ("Error uploading video " +:+ video_url +:+ ": " +:+ exn_str e);;
       mret None).

(** [if x_id: ids.append(x_id)] *)
Definition append_if_truthy (ids : list string) (x_id : option string)
    : list string :=
  match x_id with
  | Some (String _ _ as i) => ids ++ [i]
  | _ => ids
  end.

Definition upload_media (media_urls : gmap string (list string))
    : M MediaIds.t :=
  images ←
    (if truthy (media_urls !! "images")
     then for_fold (elements_of (media_urls !! "images")) []
            (fun ids image_url =>
               image_id ← _upload_image image_url;
               mret (append_if_truthy ids image_id))
     else mret []);
  videos ←
    (if truthy (media_urls !! "videos")
     then for_fold (elements_of (media_urls !! "videos")) []
            (fun ids video_url =>
               video_id ← _upload_video video_url;
               mret (append_if_truthy ids video_id))
     else mret []);
  mret (MediaIds.mk images videos).

(** *** FacebookCampaignManager *)

(** A created campaign, ad-set or creative is represented by its id
    ([.get_id()]). *)

Definition _create_base_campaign (params : FacebookCampaignParameters.t)
    : M string :=
  stamp ← strftime_now;
  remote (account_create_campaign ad_account
    {| CampaignCreateRequest.name :=
         FacebookCampaignParameters.name params +:+ "_" +:+ stamp;
       CampaignCreateRequest.objective :=
         CampaignObjective.value_of (FacebookCampaignParameters.objective params);
       CampaignCreateRequest.status := FacebookCampaignParameters.status params;
       CampaignCreateRequest.special_ad_categories :=
         if truthy (FacebookCampaignParameters.special_ad_categories params)
         then elements_of (FacebookCampaignParameters.special_ad_categories params)
         else [];
       CampaignCreateRequest.daily_budget :=
         PrimFloat.mul (FacebookCampaignParameters.daily_budget params) 100%float;
       CampaignCreateRequest.bid_strategy :=
         BidStrategy.value_of (FacebookCampaignParameters.bid_strategy params);
       CampaignCreateRequest.buying_type :=
         FacebookCampaignParameters.buying_type params |}).

Definition _create_adset (campaign : string) (params : AdSetParameters.t)
    : M string :=
  remote (adset_create campaign
    {| AdSetCreateRequest.name := AdSetParameters.name params;
       AdSetCreateRequest.campaign_id := campaign;
       AdSetCreateRequest.daily_budget :=
         PrimFloat.mul (AdSetParameters.daily_budget params) 100%float;
       AdSetCreateRequest.optimization_goal :=
         OptimizationGoal.value_of (AdSetParameters.optimization_goal params);
       AdSetCreateRequest.billing_event := AdSetParameters.billing_event params;
       AdSetCreateRequest.bid_strategy :=
         BidStrategy.value_of (AdSetParameters.bid_strategy params);
       AdSetCreateRequest.targeting :=
         _build_targeting_spec (AdSetParameters.targeting params);
       AdSetCreateRequest.start_time := AdSetParameters.start_time params;
       AdSetCreateRequest.end_time := AdSetParameters.end_time params;
       AdSetCreateRequest.status := "PAUSED" |}).

(** [creative.link_destination or product.urls['sales']] *)
Definition link_or_sales (creative : AdCreative.t) : M string :=
  match AdCreative.link_destination creative with
  | Some (String _ _ as dest) => mret dest
  | _ => product ← get_product; getitem (HotmartProduct.urls product) "sales"
  end.

Definition _create_image_ad (adset : string) (creative : AdCreative.t)
    (image_hash : string) : M unit :=
  stamp ← strftime_now;
  link ← link_or_sales creative;
  ad_creative ← remote (account_create_ad_creative ad_account
    {| CreativeCreateRequest.name := "Creative_" +:+ stamp;
       CreativeCreateRequest.page_id := getenv "FB_PAGE_ID";
       CreativeCreateRequest.story := link_data
         {| LinkData.link := link;
            LinkData.message := AdCreative.primary_text creative;
            LinkData.headline := AdCreative.headline creative;
            LinkData.description := AdCreative.description creative;
            LinkData.image_hash := image_hash;
            LinkData.call_to_action := AdCreative.call_to_action creative |} |});
  stamp ← strftime_now;
  remote (ad_create adset
    {| AdCreateRequest.name := "Ad_Image_" +:+ stamp;
       AdCreateRequest.adset_id := adset;
       AdCreateRequest.creative_id := ad_creative;
       AdCreateRequest.status := "PAUSED" |});;
  mret tt.

Definition _create_video_ad (adset : string) (creative : AdCreative.t)
    (video_id : string) : M unit :=
  stamp ← strftime_now;
  thumbnail_url ← creative_attr creative "thumbnail_url";
  ad_creative ← remote (account_create_ad_creative ad_account
    {| CreativeCreateRequest.name := "Creative_Video_" +:+ stamp;
       CreativeCreateRequest.page_id := getenv "FB_PAGE_ID";
       CreativeCreateRequest.story := video_data
         {| VideoData.video_id := video_id;
            VideoData.call_to_action := AdCreative.call_to_action creative;
            VideoData.image_url := thumbnail_url;
            VideoData.title := AdCreative.headline creative;
            VideoData.message := AdCreative.primary_text creative;
            VideoData.description := AdCreative.description creative;
            VideoData.link_description := AdCreative.description creative |} |});
  stamp ← strftime_now;
  remote (ad_create adset
    {| AdCreateRequest.name := "Ad_Video_" +:+ stamp;
       AdCreateRequest.adset_id := adset;
       AdCreateRequest.creative_id := ad_creative;
       AdCreateRequest.status := "PAUSED" |});;
  mret tt.

Definition _create_ads (adset : string) (creatives : option (list AdCreative.t))
    (media_ids : MediaIds.t) : M unit :=
  creatives ← iter creatives;
  for_each creatives (fun creative =>
    for_each (MediaIds.images media_ids) (fun image_hash =>
      _create_image_ad adset creative image_hash);;
    for_each (MediaIds.videos media_ids) (fun video_id =>
      _create_video_ad adset creative video_id)).

(** The ad-set loop of [create_campaign]. *)
Definition create_adsets_and_ads (campaign : string)
    (campaign_params : FacebookCampaignParameters.t) (media_ids : MediaIds.t)
    : M unit :=
  ad_sets ← iter (FacebookCampaignParameters.ad_sets campaign_params);
  for_each ad_sets (fun ad_set_params =>
    adset ← _create_adset campaign ad_set_params;
    _create_ads adset (FacebookCampaignParameters.ad_creatives campaign_params)
      media_ids).

(** [{'images': product.images,
      'videos': product.videos if product.videos else []}] *)
Definition product_media_urls (product : HotmartProduct.t)
    : gmap string (list string) :=
  <["videos" := if truthy (HotmartProduct.videos product)
                then elements_of (HotmartProduct.videos product)
                else []]>
  {["images" := HotmartProduct.images product]}.

Definition create_campaign (campaign_params : FacebookCampaignParameters.t)
    : M string :=
  product ← get_product;
  media_ids ← upload_media (product_media_urls product);
  campaign ← _create_base_campaign campaign_params;
  create_adsets_and_ads campaign campaign_params media_ids;;
  mret campaign.

End Pipeline.

(** ** Concrete worlds and inputs for the examples *)

Definition call_kind (c : Call) : string :=
  match c with
  | http_get _ => "body"
  | adimage_remote_create _ _ => "hash"
  | advideo_remote_create _ _ => "video"
  | account_create_campaign _ _ => "campaign"
  | adset_create _ _ => "adset"
  | account_create_ad_creative _ _ => "creative"
  | ad_create _ _ => "ad"
  end.

(** A platform on which every call succeeds. *)
Definition stub_ok : Environ :=
  mkEnviron (fun _ c => Returned (call_kind c))
            (fun _ => "20250101")
            (fun _ => Some "page_1").

(** A platform on which fetching ["https://x.test/bad.jpg"] fails and every
    other call succeeds. *)
Definition stub_one_bad_image : Environ :=
  mkEnviron
    (fun _ c =>
       match c with
       | http_get url =>
           if decide (url = "https://x.test/bad.jpg")
           then Raised "404 Not Found" else Returned "body"
       | _ => Returned (call_kind c)
       end)
    (fun _ => "20250101")
    (fun _ => Some "page_1").

(** A platform that accepts every call and answers an image upload with an
    empty ['hash']. *)
Definition stub_empty_hash : Environ :=
  mkEnviron
    (fun _ c =>
       match c with
       | adimage_remote_create _ _ => Returned ""
       | _ => Returned (call_kind c)
       end)
    (fun _ => "20250101")
    (fun _ => Some "page_1").

Definition product_abc (images : list string) (videos : option (list string))
    : HotmartProduct.t :=
  HotmartProduct.new "Course" "https://x.test/ABC" "AFF" 197%float
    "A course" ∅ images videos None.

Definition creative_with_link (link : option string) : AdCreative.t :=
  AdCreative.mk "text" "head" "desc" "LEARN_MORE" None None link None.

Definition adset_cold : AdSetParameters.t :=
  AdSetParameters.mk "Cold" OptimizationGoal.REACH "IMPRESSIONS"
    BidStrategy.LOWEST_COST_WITHOUT_CAP AudienceTargeting.default 20%float
    None None None None None.

Definition params_with (ad_sets : option (list AdSetParameters.t))
    (ad_creatives : option (list AdCreative.t)) : FacebookCampaignParameters.t :=
  FacebookCampaignParameters.mk "Campaign" CampaignObjective.OUTCOME_SALES
    "AUCTION" "PAUSED" 50%float BidStrategy.LOWEST_COST_WITH_BID_CAP
    None None None None None None ad_sets ad_creatives None None.

(** ** Vocabulary of the properties *)

(** The keys [_build_targeting_spec] can emit. *)
Definition targeting_keys : gset string :=
  {[ "age_min"; "age_max"; "genders"; "geo_locations"; "interests";
     "behaviors"; "custom_audiences"; "excluded_custom_audiences" ]}.

(** [targeting] with its four unprojected fields replaced. *)
Definition with_unprojected (targeting : AudienceTargeting.t)
    (languages demographics excluded_interests lookalike_audiences
       : option (list string)) : AudienceTargeting.t :=
  AudienceTargeting.mk
    (AudienceTargeting.age_range targeting)
    (AudienceTargeting.genders targeting)
    languages
    (AudienceTargeting.locations targeting)
    (AudienceTargeting.interests targeting)
    (AudienceTargeting.behaviors targeting)
    demographics
    excluded_interests
    (AudienceTargeting.custom_audiences targeting)
    lookalike_audiences
    (AudienceTargeting.excluded_custom_audiences targeting).

(** What the specification says about a conditionally emitted key: absent for
    a missing or empty list, otherwise the entries wrapped as [{id: v}], in
    order. *)
Definition spec_conditional_entry (field : option (list string)) : option value :=
  match field with
  | Some (v :: vs) => Some (VList (map (fun x => VDict [("id", VStr x)]) (v :: vs)))
  | _ => None
  end.

(** Number of recorded calls that satisfy [p]. *)
Fixpoint count_calls (p : Call -> bool) (evs : list Event) : nat :=
  match evs with
  | [] => 0
  | (c, _) :: rest => (if p c then 1 else 0) + count_calls p rest
  end.

(** Selects create calls by kind: campaign, ad-set, creative, ad. *)
Definition selects (campaign adset creative ad : bool) (c : Call) : bool :=
  match c with
  | account_create_campaign _ _ => campaign
  | adset_create _ _ => adset
  | account_create_ad_creative _ _ => creative
  | ad_create _ _ => ad
  | _ => false
  end.

Definition is_campaign_create : Call -> bool := selects true false false false.
Definition is_adset_create : Call -> bool := selects false true false false.
Definition is_creative_create : Call -> bool := selects false false true false.
Definition is_ad_create : Call -> bool := selects false false false true.
Definition is_create : Call -> bool := selects true true true true.

(** The platform answers [c] normally whenever it is asked. *)
Definition accepts (env : Environ) (c : Call) : Prop :=
  forall evs, exists payload, respond env evs c = Returned payload.

Definition bit (b : bool) : nat := if b then 1 else 0.

(** Every run of [m] moves the state along [R]. *)
Definition steps (R : State -> State -> Prop) {A} (m : M A) : Prop :=
  forall s, R s (m s).1.

Definition same_product (s s' : State) : Prop := product_obj s' = product_obj s.

(** The calls the media uploader may issue for the account. *)
Definition upload_call (ad_account : string) (c : Call) : Prop :=
  match c with
  | http_get _ => True
  | adimage_remote_create parent _ => parent = ad_account
  | advideo_remote_create parent _ => parent = ad_account
  | _ => False
  end.

(** The link an image creative built from [creative] may carry. *)
Definition carried_link (product : HotmartProduct.t) (creative : AdCreative.t)
    (link : string) : Prop :=
  match AdCreative.link_destination creative with
  | Some (String _ _ as dest) => link = dest
  | _ => HotmartProduct.urls product !! "sales" = Some link
  end.

(** The calls a build of [params] for [product] may issue, each with what its
    request is known to hold. *)
Definition issued_by (ad_account : string) (product : HotmartProduct.t)
    (params : FacebookCampaignParameters.t) (c : Call) : Prop :=
  match c with
  | http_get _ => True
  | adimage_remote_create parent _ => parent = ad_account
  | advideo_remote_create parent _ => parent = ad_account
  | account_create_campaign account req =>
      account = ad_account /\
      CampaignCreateRequest.status req = FacebookCampaignParameters.status params /\
      CampaignCreateRequest.daily_budget req =
        (FacebookCampaignParameters.daily_budget params * 100)%float
  | adset_create parent req =>
      AdSetCreateRequest.campaign_id req = parent /\
      AdSetCreateRequest.status req = "PAUSED" /\
      exists ad_set_params,
        ad_set_params ∈ elements_of (FacebookCampaignParameters.ad_sets params) /\
        AdSetCreateRequest.name req = AdSetParameters.name ad_set_params /\
        AdSetCreateRequest.daily_budget req =
          (AdSetParameters.daily_budget ad_set_params * 100)%float /\
        AdSetCreateRequest.targeting req =
          _build_targeting_spec (AdSetParameters.targeting ad_set_params)
  | account_create_ad_creative account req =>
      account = ad_account /\
      exists creative d,
        creative ∈ elements_of (FacebookCampaignParameters.ad_creatives params) /\
        CreativeCreateRequest.story req = link_data d /\
        carried_link product creative (LinkData.link d) /\
        LinkData.message d = AdCreative.primary_text creative /\
        LinkData.headline d = AdCreative.headline creative /\
        LinkData.description d = AdCreative.description creative /\
        LinkData.call_to_action d = AdCreative.call_to_action creative
  | ad_create parent req =>
      AdCreateRequest.adset_id req = parent /\
      AdCreateRequest.status req = "PAUSED" /\
      exists stamp, AdCreateRequest.name req = "Ad_Image_" +:+ stamp
  end.

(** An ad-set or ad create request carries status ['PAUSED']. *)
Definition created_paused (c : Call) : Prop :=
  match c with
  | adset_create _ req => AdSetCreateRequest.status req = "PAUSED"
  | ad_create _ req => AdCreateRequest.status req = "PAUSED"
  | _ => True
  end.

(** A campaign or ad-set create request carries the input daily budget of
    the campaign, or of the ad-set entry it was built from, times 100. *)
Definition budget_times_100 (params : FacebookCampaignParameters.t) (c : Call)
    : Prop :=
  match c with
  | account_create_campaign _ req =>
      CampaignCreateRequest.daily_budget req =
        (FacebookCampaignParameters.daily_budget params * 100)%float
  | adset_create _ req =>
      exists ad_set_params,
        ad_set_params ∈ elements_of (FacebookCampaignParameters.ad_sets params) /\
        AdSetCreateRequest.name req = AdSetParameters.name ad_set_params /\
        AdSetCreateRequest.daily_budget req =
          (AdSetParameters.daily_budget ad_set_params * 100)%float
  | _ => True
  end.

(** A creative or ad create request belongs to an image ad. *)
Definition image_ad_call (c : Call) : Prop :=
  match c with
  | account_create_ad_creative _ req =>
      exists d, CreativeCreateRequest.story req = link_data d
  | ad_create _ req =>
      exists stamp, AdCreateRequest.name req = "Ad_Image_" +:+ stamp
  | _ => True
  end.

(** Runs that start on [product] leave it in place and keep every recorded
    call within [I]. *)
Definition keeps (I : Call -> Prop) (product : HotmartProduct.t)
    (s s' : State) : Prop :=
  product_obj s = product ->
  product_obj s' = product /\
  (Forall (fun e => I e.1) (events s) -> Forall (fun e => I e.1) (events s')).

(** [m] ends in an exception when run from [s]; from every state. *)
Definition raises_at {A} (m : M A) (s : State) : Prop :=
  exists e, (m s).2 = Raise e.
Definition raises {A} (m : M A) : Prop := forall s, raises_at m s.

(** On [product], [m] returns normally, leaves the product in place and
    issues exactly [n] calls that satisfy [p]. *)
Definition adds (p : Call -> bool) (n : nat) (product : HotmartProduct.t)
    {A} (m : M A) : Prop :=
  forall s, product_obj s = product ->
    exists s' a, m s = (s', Ok a) /\ product_obj s' = product /\
      count_calls p (events s') = count_calls p (events s) + n.

(** The identifier a recorded upload contributed: the non-empty ['hash'] of a
    created image, the non-empty ['id'] of a created video. *)
Definition image_upload_result (e : Event) : option string :=
  match e with
  | (adimage_remote_create _ _, Returned (String _ _ as h)) => Some h
  | _ => None
  end.
Definition video_upload_result (e : Event) : option string :=
  match e with
  | (advideo_remote_create _ _, Returned (String _ _ as i)) => Some i
  | _ => None
  end.

(** The identifier a recorded upload returned, empty or not. *)
Definition image_upload_returned (e : Event) : option string :=
  match e with
  | (adimage_remote_create _ _, Returned h) => Some h
  | _ => None
  end.
Definition video_upload_returned (e : Event) : option string :=
  match e with
  | (advideo_remote_create _ _, Returned i) => Some i
  | _ => None
  end.

(** The source URL a recorded call started to upload. *)
Definition image_url_tried (e : Event) : option string :=
  match e.1 with http_get url => Some url | _ => None end.
Definition video_url_tried (e : Event) : option string :=
  match e.1 with advideo_remote_create _ url => Some url | _ => None end.

(** [upload_media] returns normally; it tried every source URL, in order,
    and its result holds exactly the identifiers [image_id] and [video_id]
    read off the calls it recorded. *)
Definition upload_media_collects (image_id video_id : Event -> option string)
    (env : Environ) (ad_account : string)
    (media_urls : gmap string (list string)) (s : State) : Prop :=
  exists s' media_ids new,
    upload_media env ad_account media_urls s = (s', Ok media_ids) /\
    events s' = (events s ++ new)%list /\
    omap image_url_tried new = elements_of (media_urls !! "images") /\
    omap video_url_tried new = elements_of (media_urls !! "videos") /\
    MediaIds.images media_ids = omap image_id new /\
    MediaIds.videos media_ids = omap video_id new.

(** The links of the creative create requests a trace records. *)
Definition creative_links (evs : list Event) : list string :=
  omap (fun e =>
          match e.1 with
          | account_create_ad_creative _ req =>
              match CreativeCreateRequest.story req with
              | link_data d => Some (LinkData.link d)
              | video_data _ => None
              end
          | _ => None
          end) evs.

(** ** Vocabulary of the further properties *)

(** The state after one more recorded call, and after one more printed
    line. *)
Definition recorded (s : State) (e : Event) : State :=
  mkState (product_obj s) (events s ++ [e]) (stdout s).
Definition printed (s : State) (line : string) : State :=
  mkState (product_obj s) (events s) (stdout s ++ [line]).

(** Hoare triples: from a state in [P], [m] ends normally in [Q] or with an
    exception in [E]. *)
Definition triple {A} (P : State -> Prop) (m : M A)
    (Q : A -> State -> Prop) (E : Exn -> State -> Prop) : Prop :=
  forall s, P s ->
    match m s with
    | (s', Ok a) => Q a s'
    | (s', Raise e) => E e s'
    end.

(** The triple of one remote call, whatever the platform answers. *)
Definition call_triple (P : State -> Prop) (c : Call)
    (Q : string -> State -> Prop) (E : Exn -> State -> Prop) : Prop :=
  forall s, P s ->
    (forall payload, Q payload (recorded s (c, Returned payload))) /\
    (forall msg, E (RemoteError msg) (recorded s (c, Raised msg))).

(** [m] never changes the state. *)
Definition unchanged {A} (m : M A) : Prop := forall s, (m s).1 = s.

Definition none_not_iterable : Exn :=
  TypeError "'NoneType' object is not iterable".
Definition no_thumbnail_url : Exn :=
  AttributeError "AdCreative" "thumbnail_url".

(** A create call other than the campaign's. *)
Definition later_call (c : Call) : Prop :=
  selects false true true true c = true.

(** The trace so far: upload calls, then the accepted campaign create call
    that returned [campaign], then ad-set, creative and ad calls only. *)
Definition campaign_open (ad_account campaign : string) (evs : list Event)
    : Prop :=
  exists uploads req rest,
    evs = (uploads
           ++ (account_create_campaign ad_account req, Returned campaign)
              :: rest)%list /\
    Forall (fun e => upload_call ad_account e.1) uploads /\
    Forall (fun e => later_call e.1) rest.

(** The shape of the trace and outcome of a build: upload calls first, then
    exactly one campaign create call, then only ad-set, creative and ad
    calls.  A rejected campaign ends the trace and is the build's error; an
    accepted one is the handle a completed build returns. *)
Definition build_shape (ad_account : string) (evs : list Event)
    (out : Outcome string) : Prop :=
  exists uploads req r rest,
    evs = (uploads ++ (account_create_campaign ad_account req, r) :: rest)%list /\
    Forall (fun e => upload_call ad_account e.1) uploads /\
    Forall (fun e => later_call e.1) rest /\
    match r with
    | Returned campaign =>
        match out with Ok handle => handle = campaign | Raise _ => True end
    | Raised msg => rest = [] /\ out = Raise (RemoteError msg)
    end.

(** The ids a trace has produced so far: the campaign and the ad-set most
    recently returned by their create calls, and the latest event. *)
Record Ids := mkIds {
  last_campaign : option string;
  last_adset : option string;
  last_event : option Event;
}.

Definition no_ids : Ids := mkIds None None None.

Definition track_step (t : Ids) (e : Event) : Ids :=
  match e with
  | (account_create_campaign _ _, Returned id) =>
      mkIds (Some id) (last_adset t) (Some e)
  | (adset_create _ _, Returned id) =>
      mkIds (last_campaign t) (Some id) (Some e)
  | _ => mkIds (last_campaign t) (last_adset t) (Some e)
  end.

Definition track (t : Ids) (evs : list Event) : Ids :=
  fold_left track_step evs t.

(** What a call must refer to, given the ids produced before it: an ad-set
    is created under, and names, the returned campaign; an ad is created
    under, and names, the latest returned ad-set, and references the creative
    returned by the call just before it. *)
Definition threaded_step (t : Ids) (e : Event) : Prop :=
  match e.1 with
  | adset_create parent req =>
      last_campaign t = Some parent /\
      AdSetCreateRequest.campaign_id req = parent
  | ad_create parent req =>
      last_adset t = Some parent /\
      AdCreateRequest.adset_id req = parent /\
      exists account creative_req,
        last_event t
        = Some (account_create_ad_creative account creative_req,
                Returned (AdCreateRequest.creative_id req))
  | _ => True
  end.

Fixpoint threaded (t : Ids) (evs : list Event) : Prop :=
  match evs with
  | [] => True
  | e :: rest => threaded_step t e /\ threaded (track_step t e) rest
  end.

(** No create call in the trace was rejected. *)
Definition no_failed_create (evs : list Event) : Prop :=
  Forall (fun e => is_create e.1 = true -> exists payload, e.2 = Returned payload)
    evs.

(** The ways a build can fail: with the error of a rejected create call,
    which is then the last call of the trace and the only rejected one; with
    the [TypeError] of iterating [None]; or with the [AttributeError] of
    [thumbnail_url]; in the last two cases no create call was rejected. *)
Definition build_error (evs : list Event) (e : Exn) : Prop :=
  match e with
  | RemoteError msg =>
      exists before c,
        evs = (before ++ [(c, Raised msg)])%list /\
        is_create c = true /\ no_failed_create before
  | TypeError _ => e = none_not_iterable /\ no_failed_create evs
  | AttributeError _ _ => e = no_thumbnail_url /\ no_failed_create evs
  | KeyError _ => False
  end.

Definition build_outcome (evs : list Event) (out : Outcome string) : Prop :=
  match out with
  | Ok _ => no_failed_create evs
  | Raise e => build_error evs e
  end.

(** The calls one image source URL gives rise to: a fetch that fails, or a
    fetch that succeeds followed by one image create call, under the account,
    carrying the fetched bytes. *)
Definition image_block (ad_account url : string) (block : list Event) : Prop :=
  (exists msg, block = [(http_get url, Raised msg)]) \/
  (exists body r,
     block = [(http_get url, Returned body);
              (adimage_remote_create ad_account body, r)]).

(** The call one video source URL gives rise to. *)
Definition video_block (ad_account url : string) (block : list Event) : Prop :=
  exists r, block = [(advideo_remote_create ad_account url, r)].

(** Number of recorded calls that raised. *)
Fixpoint count_failed (evs : list Event) : nat :=
  match evs with
  | [] => 0
  | (_, Raised _) :: rest => S (count_failed rest)
  | (_, Returned _) :: rest => count_failed rest
  end.

(** What [upload_media] does from [s]: it returns [media_ids] in state [s'],
    having issued one block of calls per source URL, images first, in input
    order, and printed [lines]. *)
Definition upload_media_run (env : Environ) (ad_account : string)
    (media_urls : gmap string (list string)) (s s' : State)
    (media_ids : MediaIds.t) (image_blocks video_blocks : list (list Event))
    (lines : list string) : Prop :=
  upload_media env ad_account media_urls s = (s', Ok media_ids) /\
  product_obj s' = product_obj s /\
  events s' = (events s ++ concat image_blocks ++ concat video_blocks)%list /\
  Forall2 (image_block ad_account) (elements_of (media_urls !! "images"))
    image_blocks /\
  Forall2 (video_block ad_account) (elements_of (media_urls !! "videos"))
    video_blocks /\
  MediaIds.images media_ids = omap image_upload_result (concat image_blocks) /\
  MediaIds.videos media_ids = omap video_upload_result (concat video_blocks) /\
  stdout s' = (stdout s ++ lines)%list /\
  length lines = count_failed (concat image_blocks ++ concat video_blocks).

(** A campaign create request is issued for the manager's account with the
    status the caller gave. *)
Definition campaign_as_given (ad_account : string)
    (params : FacebookCampaignParameters.t) (c : Call) : Prop :=
  match c with
  | account_create_campaign account req =>
      account = ad_account /\
      CampaignCreateRequest.status req = FacebookCampaignParameters.status params
  | _ => True
  end.

(** An ad-set create request is built from one of the [ad_sets] entries
    (its name, and the targeting spec of its own targeting); an image
    creative request from one of the [ad_creatives] entries (its texts and
    call to action). *)
Definition built_from_entries (params : FacebookCampaignParameters.t)
    (c : Call) : Prop :=
  match c with
  | adset_create _ req =>
      exists ad_set_params,
        ad_set_params ∈ elements_of (FacebookCampaignParameters.ad_sets params) /\
        AdSetCreateRequest.name req = AdSetParameters.name ad_set_params /\
        AdSetCreateRequest.targeting req =
          _build_targeting_spec (AdSetParameters.targeting ad_set_params)
  | account_create_ad_creative _ req =>
      exists creative d,
        creative ∈ elements_of (FacebookCampaignParameters.ad_creatives params) /\
        CreativeCreateRequest.story req = link_data d /\
        LinkData.message d = AdCreative.primary_text creative /\
        LinkData.headline d = AdCreative.headline creative /\
        LinkData.description d = AdCreative.description creative /\
        LinkData.call_to_action d = AdCreative.call_to_action creative
  | _ => True
  end.

(** A creative create request references one of [hashes]. *)
Definition creative_uses (hashes : list string) (c : Call) : Prop :=
  match c with
  | account_create_ad_creative _ req =>
      match CreativeCreateRequest.story req with
      | link_data d => LinkData.image_hash d ∈ hashes
      | video_data _ => False
      end
  | _ => True
  end.

(** The fields no operation of the pipeline reads, cleared. *)
Definition forget_unused_adset (a : AdSetParameters.t) : AdSetParameters.t :=
  AdSetParameters.mk (AdSetParameters.name a)
    (AdSetParameters.optimization_goal a) (AdSetParameters.billing_event a)
    (AdSetParameters.bid_strategy a) (AdSetParameters.targeting a)
    (AdSetParameters.daily_budget a) None (AdSetParameters.start_time a)
    (AdSetParameters.end_time a) None None.

Definition forget_unused_creative (c : AdCreative.t) : AdCreative.t :=
  AdCreative.mk (AdCreative.primary_text c) (AdCreative.headline c)
    (AdCreative.description c) (AdCreative.call_to_action c) None None
    (AdCreative.link_destination c) None.

Definition forget_unused (params : FacebookCampaignParameters.t)
    : FacebookCampaignParameters.t :=
  FacebookCampaignParameters.mk
    (FacebookCampaignParameters.name params)
    (FacebookCampaignParameters.objective params)
    (FacebookCampaignParameters.buying_type params)
    (FacebookCampaignParameters.status params)
    (FacebookCampaignParameters.daily_budget params)
    (FacebookCampaignParameters.bid_strategy params)
    None None None None None None
    (option_map (map forget_unused_adset)
       (FacebookCampaignParameters.ad_sets params))
    (option_map (map forget_unused_creative)
       (FacebookCampaignParameters.ad_creatives params))
    (FacebookCampaignParameters.special_ad_categories params)
    None.

(** The ad-set create requests of a trace, in the order they were issued. *)
Definition adset_requests (evs : list Event) : list AdSetCreateRequest.t :=
  omap (fun e => match e.1 with
                 | adset_create _ req => Some req
                 | _ => None
                 end) evs.

(** Name, daily budget and targeting of an ad-set create request, and what
    they are expected to be for an [ad_sets] entry. *)
Definition adset_request_summary (req : AdSetCreateRequest.t)
    : string * float * gmap string value :=
  (AdSetCreateRequest.name req, AdSetCreateRequest.daily_budget req,
   AdSetCreateRequest.targeting req).

Definition adset_entry_summary (a : AdSetParameters.t)
    : string * float * gmap string value :=
  (AdSetParameters.name a, (AdSetParameters.daily_budget a * 100)%float,
   _build_targeting_spec (AdSetParameters.targeting a)).

Definition issued_adsets (evs : list Event)
    : list (string * float * gmap string value) :=
  map adset_request_summary (adset_requests evs).

(** The request [_create_adset] sends for an entry. *)
Definition adset_request (campaign : string) (params : AdSetParameters.t)
    : AdSetCreateRequest.t :=
  {| AdSetCreateRequest.name := AdSetParameters.name params;
     AdSetCreateRequest.campaign_id := campaign;
     AdSetCreateRequest.daily_budget :=
       (AdSetParameters.daily_budget params * 100)%float;
     AdSetCreateRequest.optimization_goal :=
       OptimizationGoal.value_of (AdSetParameters.optimization_goal params);
     AdSetCreateRequest.billing_event := AdSetParameters.billing_event params;
     AdSetCreateRequest.bid_strategy :=
       BidStrategy.value_of (AdSetParameters.bid_strategy params);
     AdSetCreateRequest.targeting :=
       _build_targeting_spec (AdSetParameters.targeting params);
     AdSetCreateRequest.start_time := AdSetParameters.start_time params;
     AdSetCreateRequest.end_time := AdSetParameters.end_time params;
     AdSetCreateRequest.status := "PAUSED" |}.

(** The primary text and image hash of an image creative create call. *)
Definition creative_pair (c : Call) : option (string * string) :=
  match c with
  | account_create_ad_creative _ req =>
      match CreativeCreateRequest.story req with
      | link_data d => Some (LinkData.message d, LinkData.image_hash d)
      | video_data _ => None
      end
  | _ => None
  end.

Definition creative_pairs (evs : list Event) : list (string * string) :=
  omap (fun e => creative_pair e.1) evs.

(** The pairs of the full cross product, creative-major and image-minor. *)
Definition cross_product (creatives : list AdCreative.t) (hashes : list string)
    : list (string * string) :=
  flat_map (fun creative =>
              map (fun h => (AdCreative.primary_text creative, h)) hashes)
    creatives.

(** On [product], [m] returns normally, leaves the product in place and
    issues image creative create calls for exactly the pairs [pairs], in
    order. *)
Definition emits (pairs : list (string * string)) (product : HotmartProduct.t)
    {A} (m : M A) : Prop :=
  forall s, product_obj s = product ->
    exists s' a, m s = (s', Ok a) /\ product_obj s' = product /\
      creative_pairs (events s') = (creative_pairs (events s) ++ pairs)%list.

(** Number of recorded events that satisfy [p]. *)
Fixpoint count_events (p : Event -> bool) (evs : list Event) : nat :=
  match evs with
  | [] => 0
  | e :: rest => (if p e then 1 else 0) + count_events p rest
  end.

(** The event that makes an upload fail: the fetch of an image or the create
    call of an image or video raised.  An upload attempt stops at its first
    exception, so each failed upload has exactly one such event. *)
Definition image_upload_failed (e : Event) : bool :=
  match e with
  | (http_get _, Raised _) => true
  | (adimage_remote_create _ _, Raised _) => true
  | _ => false
  end.
Definition video_upload_failed (e : Event) : bool :=
  match e with
  | (advideo_remote_create _ _, Raised _) => true
  | _ => false
  end.

(** The event of an upload that succeeded with an empty identifier. *)
Definition image_upload_empty (e : Event) : bool :=
  match e with
  | (adimage_remote_create _ _, Returned EmptyString) => true
  | _ => false
  end.
Definition video_upload_empty (e : Event) : bool :=
  match e with
  | (advideo_remote_create _ _, Returned EmptyString) => true
  | _ => false
  end.

(** * Properties *)

(** ** Targeting spec builder *)

Lemma lookup_cond_insert_ne (b : bool) (k k' : string) (v : value)
    (m : gmap string value) :
  k ≠ k' -> (if b then <[k:=v]> m else m) !! k' = m !! k'.
Proof. intros Hne. destruct b; [by rewrite lookup_insert_ne|done]. Qed.

Lemma lookup_cond_insert_eq (b : bool) (k : string) (v : value)
    (m : gmap string value) :
  (if b then <[k:=v]> m else m) !! k = if b then Some v else m !! k.
Proof. destruct b; [by rewrite lookup_insert_eq|done]. Qed.

Lemma spec_conditional_entry_truthy (field : option (list string)) :
  spec_conditional_entry field =
    if truthy field then Some (id_entries (elements_of field)) else None.
Proof. by destruct field as [[|v vs]|]. Qed.

Ltac lookup_targeting :=
  unfold _build_targeting_spec; cbv zeta;
  repeat first
    [ rewrite lookup_cond_insert_eq
    | rewrite lookup_cond_insert_ne by done
    | rewrite lookup_insert_eq
    | rewrite lookup_insert_ne by done
    | rewrite lookup_singleton_eq
    | rewrite lookup_singleton_ne by done ].

(** C4.  For every targeting record (in particular for every ordered age
    range), the emitted spec maps [age_min] to the first and [age_max] to the
    second component of the age range, and always holds [genders] and a
    [geo_locations] object wrapping the locations as [countries], whether or
    not genders and locations were supplied: a supplied list is carried entry
    by entry, in order, and a missing one as [None]. *)
Theorem build_targeting_spec_always_emits (targeting : AudienceTargeting.t) :
  let spec := _build_targeting_spec targeting in
  spec !! "age_min" = Some (VInt (AudienceTargeting.age_range targeting).1) /\
  spec !! "age_max" = Some (VInt (AudienceTargeting.age_range targeting).2) /\
  spec !! "genders" =
    Some (match AudienceTargeting.genders targeting with
          | Some codes => VList (map VInt codes)
          | None => VNone
          end) /\
  spec !! "geo_locations" =
    Some (VDict [("countries",
                  match AudienceTargeting.locations targeting with
                  | Some countries => VList (map VStr countries)
                  | None => VNone
                  end)]).
Proof.
  cbv zeta. split_and!; lookup_targeting; unfold opt_value; done.
Qed.

(** Supplied genders [[1, 2]] and locations [['US', 'CA']] reach the spec as
    they are. *)
Example build_targeting_spec_supplied_lists :
  let spec :=
    _build_targeting_spec
      (AudienceTargeting.mk (25, 55)%Z (Some [1; 2]%Z) None (Some ["US"; "CA"])
         None None None None None None None) in
  spec !! "age_min" = Some (VInt 25) /\
  spec !! "age_max" = Some (VInt 55) /\
  spec !! "genders" = Some (VList [VInt 1; VInt 2]) /\
  spec !! "geo_locations" =
    Some (VDict [("countries", VList [VStr "US"; VStr "CA"])]).
Proof. by vm_compute. Qed.

(** C5.  Each of [interests], [behaviors], [custom_audiences] and
    [excluded_custom_audiences] is a key of the emitted spec exactly when the
    corresponding input list is non-empty; its value is then the input list
    with every entry [v] wrapped as [{id: v}], in input order, and for a
    missing or empty list the key is absent. *)
Theorem build_targeting_spec_conditional_keys (targeting : AudienceTargeting.t) :
  let spec := _build_targeting_spec targeting in
  spec !! "interests" =
    spec_conditional_entry (AudienceTargeting.interests targeting) /\
  spec !! "behaviors" =
    spec_conditional_entry (AudienceTargeting.behaviors targeting) /\
  spec !! "custom_audiences" =
    spec_conditional_entry (AudienceTargeting.custom_audiences targeting) /\
  spec !! "excluded_custom_audiences" =
    spec_conditional_entry (AudienceTargeting.excluded_custom_audiences targeting).
Proof.
  cbv zeta. rewrite !spec_conditional_entry_truthy.
  repeat split; by lookup_targeting.
Qed.

(** The specification's example: [interests = [a, b]] gives
    [[{id: a}, {id: b}]], and the empty [behaviors] list gives no key. *)
Example build_targeting_spec_interests_a_b :
  let spec :=
    _build_targeting_spec
      (AudienceTargeting.mk (25, 55)%Z None None None (Some ["a"; "b"])
         (Some []) None None None None None) in
  spec !! "interests" =
    Some (VList [VDict [("id", VStr "a")]; VDict [("id", VStr "b")]]) /\
  spec !! "behaviors" = None /\
  spec !! "custom_audiences" = None.
Proof. by vm_compute. Qed.

Lemma dom_cond_insert (b : bool) (k : string) (v : value)
    (m : gmap string value) (K : gset string) :
  k ∈ K -> dom m ⊆ K -> dom (if b then <[k:=v]> m else m) ⊆ K.
Proof. destruct b; rewrite ?dom_insert_L; set_solver. Qed.

(** C10.  The keys of the emitted spec are drawn from [age_min], [age_max],
    [genders], [geo_locations], [interests], [behaviors], [custom_audiences]
    and [excluded_custom_audiences] only, and the spec does not depend on
    [languages], [demographics], [excluded_interests] or
    [lookalike_audiences], whatever those fields hold. *)
Theorem build_targeting_spec_unprojected_fields (targeting : AudienceTargeting.t) :
  dom (_build_targeting_spec targeting) ⊆ targeting_keys /\
  forall languages demographics excluded_interests lookalike_audiences,
    _build_targeting_spec
      (with_unprojected targeting languages demographics excluded_interests
         lookalike_audiences)
    = _build_targeting_spec targeting.
Proof.
  split; [|done].
  unfold _build_targeting_spec. cbv zeta.
  repeat (apply dom_cond_insert; [by vm_compute|]).
  rewrite !dom_insert_L, dom_singleton_L. unfold targeting_keys. set_solver.
Qed.

(** ** Product URLs *)

Lemma HotmartProduct_new_urls name base_url affiliate_id price description
    target_audience images videos testimonials :
  HotmartProduct.urls
    (HotmartProduct.new name base_url affiliate_id price description
       target_audience images videos testimonials)
  = <["order_bump" := base_url +:+ "?ap=25f0"]>
     (<["checkout" := base_url +:+ "?ap=838e"]>
      (<["product" := base_url +:+ "?dp=1"]> {["sales" := base_url]})).
Proof. reflexivity. Qed.

(** ** Reasoning about runs: relations every step preserves *)

Section Steps.
Variable R : State -> State -> Prop.
Hypothesis R_refl : forall s, R s s.
Hypothesis R_trans : forall s1 s2 s3, R s1 s2 -> R s2 s3 -> R s1 s3.

Lemma steps_ret {A} (a : A) : steps R (mret a).
Proof. intros s. apply R_refl. Qed.

Lemma steps_raise {A} (e : Exn) : steps R (@raise A e).
Proof. intros s. apply R_refl. Qed.

Lemma steps_get_product : steps R get_product.
Proof. intros s. apply R_refl. Qed.

Lemma steps_strftime_now env : steps R (strftime_now env).
Proof. intros s. apply R_refl. Qed.

Lemma steps_bind {A B} (m : M A) (f : A -> M B) :
  steps R m -> (forall a, steps R (f a)) -> steps R (m ≫= f).
Proof.
  intros Hm Hf s. unfold mbind, M_bind.
  specialize (Hm s). destruct (m s) as [s' [a|e]]; simpl in *; [|done].
  eapply R_trans; [exact Hm|apply Hf].
Qed.

Lemma steps_try_except {A} (body : M A) (handler : Exn -> M A) :
  steps R body -> (forall e, steps R (handler e)) ->
  steps R (try_except body handler).
Proof.
  intros Hm Hh s. unfold try_except.
  specialize (Hm s). destruct (body s) as [s' [a|e]]; simpl in *; [done|].
  eapply R_trans; [exact Hm|apply Hh].
Qed.

Lemma steps_for_each {A} (xs : list A) (body : A -> M unit) :
  (forall x, x ∈ xs -> steps R (body x)) -> steps R (for_each xs body).
Proof.
  induction xs as [|x xs IH]; intros Hbody; simpl.
  - apply steps_ret.
  - apply steps_bind; [apply Hbody; left|].
    intros _. apply IH. intros y Hy. apply Hbody. by right.
Qed.

Lemma steps_for_fold {A B} (xs : list A) (acc : B) (body : B -> A -> M B) :
  (forall acc x, x ∈ xs -> steps R (body acc x)) ->
  steps R (for_fold xs acc body).
Proof.
  revert acc. induction xs as [|x xs IH]; intros acc Hbody; simpl.
  - apply steps_ret.
  - apply steps_bind; [apply Hbody; left|].
    intros acc'. apply IH. intros acc'' y Hy. apply Hbody. by right.
Qed.

Lemma steps_iter {A} (x : option (list A)) : steps R (iter x).
Proof. destruct x; [apply steps_ret|apply steps_raise]. Qed.

Lemma steps_getitem d key : steps R (getitem d key).
Proof. unfold getitem. destruct (d !! key); [apply steps_ret|apply steps_raise]. Qed.

Lemma steps_creative_attr creative attr : steps R (creative_attr creative attr).
Proof.
  unfold creative_attr.
  destruct (AdCreative.getattr creative attr); [apply steps_ret|apply steps_raise].
Qed.

Lemma steps_link_or_sales creative : steps R (link_or_sales creative).
Proof.
  unfold link_or_sales.
  destruct (AdCreative.link_destination creative) as [[|? ?]|];
    try apply steps_ret;
    (apply steps_bind; [apply steps_get_product|intros ?; apply steps_getitem]).
Qed.

(** The media uploader only needs printing and upload calls to move along
    [R]. *)
Section UploadCalls.
Variable env : Environ.
Variable ad_account : string.
Hypothesis R_print : forall line, steps R (print line).
Hypothesis R_upload :
  forall c, upload_call ad_account c -> steps R (remote env c).

Lemma steps_upload_image url : steps R (_upload_image env ad_account url).
Proof.
  unfold _upload_image. apply steps_try_except.
  - apply steps_bind; [by apply R_upload|intros response].
    apply steps_bind; [by apply R_upload|intros image_hash].
    apply steps_ret.
  - intros e. apply steps_bind; [apply R_print|intros _; apply steps_ret].
Qed.

Lemma steps_upload_video url : steps R (_upload_video env ad_account url).
Proof.
  unfold _upload_video. apply steps_try_except.
  - apply steps_bind; [by apply R_upload|intros video]. apply steps_ret.
  - intros e. apply steps_bind; [apply R_print|intros _; apply steps_ret].
Qed.

Lemma steps_upload_media media_urls :
  steps R (upload_media env ad_account media_urls).
Proof.
  unfold upload_media.
  apply steps_bind.
  { destruct (truthy _); [|apply steps_ret].
    apply steps_for_fold. intros ids url _.
    apply steps_bind; [apply steps_upload_image|intros ?; apply steps_ret]. }
  intros images. apply steps_bind; [|intros ?; apply steps_ret].
  destruct (truthy _); [|apply steps_ret].
  apply steps_for_fold. intros ids url _.
  apply steps_bind; [apply steps_upload_video|intros ?; apply steps_ret].
Qed.
End UploadCalls.

(** When, in addition, every remote call moves along [R], so does every
    operation of the pipeline. *)
Section AllCalls.
Variable env : Environ.
Variable ad_account : string.
Hypothesis R_print : forall line, steps R (print line).
Hypothesis R_remote : forall c, steps R (remote env c).

Ltac steps_structure :=
  repeat first
    [ apply steps_ret
    | apply steps_raise
    | apply steps_get_product
    | apply steps_strftime_now
    | apply steps_iter
    | apply steps_getitem
    | apply steps_creative_attr
    | apply steps_link_or_sales
    | apply R_print
    | apply R_remote
    | apply steps_bind; [|intros ?]
    | apply steps_for_each; intros ? _ ].

Lemma steps_create_base_campaign params :
  steps R (_create_base_campaign env ad_account params).
Proof. unfold _create_base_campaign. steps_structure. Qed.

Lemma steps_create_adset campaign params :
  steps R (_create_adset env campaign params).
Proof. unfold _create_adset. steps_structure. Qed.

Lemma steps_create_image_ad adset creative image_hash :
  steps R (_create_image_ad env ad_account adset creative image_hash).
Proof. unfold _create_image_ad. steps_structure. Qed.

Lemma steps_create_video_ad adset creative video_id :
  steps R (_create_video_ad env ad_account adset creative video_id).
Proof. unfold _create_video_ad. steps_structure. Qed.

Lemma steps_create_ads adset creatives media_ids :
  steps R (_create_ads env ad_account adset creatives media_ids).
Proof.
  unfold _create_ads.
  steps_structure;
    first [apply steps_create_image_ad|apply steps_create_video_ad].
Qed.

Lemma steps_create_adsets_and_ads campaign params media_ids :
  steps R (create_adsets_and_ads env ad_account campaign params media_ids).
Proof.
  unfold create_adsets_and_ads.
  steps_structure; first [apply steps_create_adset|apply steps_create_ads].
Qed.

Lemma steps_create_campaign params :
  steps R (create_campaign env ad_account params).
Proof.
  unfold create_campaign.
  apply steps_bind; [apply steps_get_product|intros product].
  apply steps_bind; [apply steps_upload_media; by auto|intros media_ids].
  apply steps_bind; [apply steps_create_base_campaign|intros campaign].
  apply steps_bind; [apply steps_create_adsets_and_ads|intros _].
  apply steps_ret.
Qed.
End AllCalls.
End Steps.

Lemma same_product_refl s : same_product s s.
Proof. reflexivity. Qed.

Lemma same_product_trans s1 s2 s3 :
  same_product s1 s2 -> same_product s2 s3 -> same_product s1 s3.
Proof. unfold same_product. congruence. Qed.

Lemma same_product_print line : steps same_product (print line).
Proof. intros s. reflexivity. Qed.

Lemma same_product_remote env c : steps same_product (remote env c).
Proof. intros s. unfold remote. by destruct (respond env (events s) c). Qed.

(** C9.  A product constructed with base url [B] has the url map with exactly
    the four entries sales = [B], product = [B?dp=1], checkout = [B?ap=838e]
    and order_bump = [B?ap=25f0] (for ["https://x.test/ABC"]: those four
    strings), and no operation of the pipeline changes the product object, its
    url map included. *)
Theorem product_urls_derived_and_read_only :
  (forall name B affiliate_id price description target_audience images videos
          testimonials key url,
     HotmartProduct.urls
       (HotmartProduct.new name B affiliate_id price description
          target_audience images videos testimonials) !! key = Some url
     <-> (key = "sales" /\ url = B)
         \/ (key = "product" /\ url = B +:+ "?dp=1")
         \/ (key = "checkout" /\ url = B +:+ "?ap=838e")
         \/ (key = "order_bump" /\ url = B +:+ "?ap=25f0"))
  /\ (let urls := HotmartProduct.urls (product_abc [] None) in
      urls !! "sales" = Some "https://x.test/ABC" /\
      urls !! "product" = Some "https://x.test/ABC?dp=1" /\
      urls !! "checkout" = Some "https://x.test/ABC?ap=838e" /\
      urls !! "order_bump" = Some "https://x.test/ABC?ap=25f0" /\
      size urls = 4)
  /\ (forall env ad_account s,
        (forall params,
           product_obj (create_campaign env ad_account params s).1 = product_obj s)
        /\ (forall media_urls,
              product_obj (upload_media env ad_account media_urls s).1
              = product_obj s)
        /\ (forall params,
              product_obj (_create_base_campaign env ad_account params s).1
              = product_obj s)
        /\ (forall campaign params,
              product_obj (_create_adset env campaign params s).1 = product_obj s)
        /\ (forall adset creatives media_ids,
              product_obj (_create_ads env ad_account adset creatives media_ids s).1
              = product_obj s)
        /\ (forall adset creative image_hash,
              product_obj
                (_create_image_ad env ad_account adset creative image_hash s).1
              = product_obj s)
        /\ (forall adset creative video_id,
              product_obj
                (_create_video_ad env ad_account adset creative video_id s).1
              = product_obj s)).
Proof.
  split; [|split].
  - intros. rewrite HotmartProduct_new_urls.
    rewrite !lookup_insert, lookup_singleton.
    repeat case_decide; subst; naive_solver.
  - by vm_compute.
  - intros env ad_account s.
    pose proof same_product_refl as Hr. pose proof same_product_trans as Ht.
    pose proof same_product_print as Hp.
    pose proof (same_product_remote env) as Hc.
    repeat apply conj; intros.
    + by apply steps_create_campaign.
    + apply (steps_upload_media _ Hr Ht env ad_account Hp); by intros.
    + by apply steps_create_base_campaign.
    + by apply steps_create_adset.
    + by apply steps_create_ads.
    + by apply steps_create_image_ad.
    + by apply steps_create_video_ad.
Qed.

(** ** Video ads *)

Lemma create_video_ad_raises env ad_account adset creative video_id s :
  _create_video_ad env ad_account adset creative video_id s
  = (s, Raise (AttributeError "AdCreative" "thumbnail_url")).
Proof. reflexivity. Qed.

(** ** What a build may issue *)

Lemma keeps_refl I product s : keeps I product s s.
Proof. by intros Hs. Qed.

Lemma keeps_trans I product s1 s2 s3 :
  keeps I product s1 s2 -> keeps I product s2 s3 -> keeps I product s1 s3.
Proof.
  intros H12 H23 Hs. destruct (H12 Hs) as [Hp2 HF2].
  destruct (H23 Hp2) as [Hp3 HF3]. auto.
Qed.

Lemma keeps_print I product line : steps (keeps I product) (print line).
Proof. by intros s Hs. Qed.

Lemma keeps_remote env (I : Call -> Prop) product c :
  I c -> steps (keeps I product) (remote env c).
Proof.
  intros Hc s Hs. unfold remote.
  destruct (respond env (events s) c); simpl; (split; [done|]);
    intros HF; (apply Forall_app; split; [done|]); by repeat constructor.
Qed.

Lemma keeps_bind_post {A B} I product (m : M A) (f : A -> M B) (Q : A -> Prop) :
  steps (keeps I product) m ->
  (forall s s' a, product_obj s = product -> m s = (s', Ok a) -> Q a) ->
  (forall a, Q a -> steps (keeps I product) (f a)) ->
  steps (keeps I product) (m ≫= f).
Proof.
  intros Hm HQ Hf s Hs. unfold mbind, M_bind.
  specialize (Hm s Hs). specialize (HQ s).
  destruct (m s) as [s' [a|e]]; simpl in *; [|done].
  destruct Hm as [Hp' HF].
  destruct (Hf a (HQ s' a Hs eq_refl) s' Hp') as [Hp'' HF']. auto.
Qed.

Lemma link_or_sales_carried product creative s s' link :
  product_obj s = product ->
  link_or_sales creative s = (s', Ok link) ->
  carried_link product creative link.
Proof.
  intros Hs. unfold link_or_sales, carried_link.
  destruct (AdCreative.link_destination creative) as [[|ch dest]|];
    unfold mbind, M_bind, get_product, getitem; simpl; rewrite ?Hs;
    try (destruct (HotmartProduct.urls product !! "sales");
         unfold mret, M_ret, raise);
    congruence.
Qed.

Section Issued.
Variable env : Environ.
Variable ad_account : string.
Variable product : HotmartProduct.t.
Variable params : FacebookCampaignParameters.t.

Let I := issued_by ad_account product params.
Let R := keeps I product.

Lemma issued_refl : forall s, R s s.
Proof. apply keeps_refl. Qed.

Lemma issued_trans : forall s1 s2 s3, R s1 s2 -> R s2 s3 -> R s1 s3.
Proof. apply keeps_trans. Qed.

Lemma issued_upload_media media_urls :
  steps R (upload_media env ad_account media_urls).
Proof.
  apply steps_upload_media; [apply issued_refl|apply issued_trans|apply keeps_print|].
  intros c Hc. apply keeps_remote. by destruct c.
Qed.

Lemma issued_create_base_campaign :
  steps R (_create_base_campaign env ad_account params).
Proof.
  unfold _create_base_campaign.
  apply steps_bind; [apply issued_trans|apply steps_strftime_now, issued_refl|].
  intros stamp. by apply keeps_remote.
Qed.

Lemma issued_create_adset campaign ad_set_params :
  ad_set_params ∈ elements_of (FacebookCampaignParameters.ad_sets params) ->
  steps R (_create_adset env campaign ad_set_params).
Proof.
  intros Hin. apply keeps_remote. simpl. eauto 10.
Qed.

Lemma issued_create_image_ad adset creative image_hash :
  creative ∈ elements_of (FacebookCampaignParameters.ad_creatives params) ->
  steps R (_create_image_ad env ad_account adset creative image_hash).
Proof.
  intros Hin. unfold _create_image_ad.
  apply steps_bind; [apply issued_trans|apply steps_strftime_now, issued_refl|].
  intros stamp.
  apply (keeps_bind_post _ _ _ _ (carried_link product creative)).
  { apply steps_link_or_sales; [apply issued_refl|apply issued_trans]. }
  { intros s s' link. apply link_or_sales_carried. }
  intros link Hlink.
  apply steps_bind; [apply issued_trans| |intros ad_creative].
  { apply keeps_remote. simpl. split; [done|]. exists creative. eauto 10. }
  apply steps_bind; [apply issued_trans|apply steps_strftime_now, issued_refl|].
  intros stamp'.
  apply steps_bind; [apply issued_trans| |].
  { apply keeps_remote. simpl. eauto. }
  intros _. apply steps_ret, issued_refl.
Qed.

Lemma issued_create_video_ad adset creative video_id :
  steps R (_create_video_ad env ad_account adset creative video_id).
Proof. intros s. rewrite create_video_ad_raises. apply issued_refl. Qed.

Lemma issued_create_ads adset media_ids :
  steps R (_create_ads env ad_account adset
             (FacebookCampaignParameters.ad_creatives params) media_ids).
Proof.
  unfold _create_ads.
  apply (keeps_bind_post _ _ _ _
           (fun l => FacebookCampaignParameters.ad_creatives params = Some l)).
  { apply steps_iter; apply issued_refl. }
  { intros s s' l _. destruct (FacebookCampaignParameters.ad_creatives params);
      unfold iter, mret, M_ret, raise; congruence. }
  intros creatives Hcs.
  apply steps_for_each; [apply issued_refl|apply issued_trans|].
  intros creative Hin.
  apply steps_bind; [apply issued_trans| |intros _].
  - apply steps_for_each; [apply issued_refl|apply issued_trans|].
    intros image_hash _. apply issued_create_image_ad. by rewrite Hcs.
  - apply steps_for_each; [apply issued_refl|apply issued_trans|].
    intros video_id _. apply issued_create_video_ad.
Qed.

Lemma issued_create_adsets_and_ads campaign media_ids :
  steps R (create_adsets_and_ads env ad_account campaign params media_ids).
Proof.
  unfold create_adsets_and_ads.
  apply (keeps_bind_post _ _ _ _
           (fun l => FacebookCampaignParameters.ad_sets params = Some l)).
  { apply steps_iter; apply issued_refl. }
  { intros s s' l _. destruct (FacebookCampaignParameters.ad_sets params);
      unfold iter, mret, M_ret, raise; congruence. }
  intros ad_sets Has.
  apply steps_for_each; [apply issued_refl|apply issued_trans|].
  intros ad_set_params Hin.
  apply steps_bind; [apply issued_trans| |intros adset].
  - apply issued_create_adset. by rewrite Has.
  - apply issued_create_ads.
Qed.

Lemma issued_create_campaign :
  steps R (create_campaign env ad_account params).
Proof.
  unfold create_campaign.
  apply steps_bind; [apply issued_trans|apply steps_get_product, issued_refl|].
  intros product'.
  apply steps_bind; [apply issued_trans|apply issued_upload_media|].
  intros media_ids.
  apply steps_bind; [apply issued_trans|apply issued_create_base_campaign|].
  intros campaign.
  apply steps_bind; [apply issued_trans|apply issued_create_adsets_and_ads|].
  intros _. apply steps_ret, issued_refl.
Qed.

(** Every call a build records is one the pipeline issues for its inputs. *)
Lemma create_campaign_trace :
  Forall (fun e => issued_by ad_account product params e.1)
    (events (create_campaign env ad_account params (initial_state product)).1).
Proof.
  destruct (issued_create_campaign (initial_state product) eq_refl) as [_ HF].
  apply HF. constructor.
Qed.
End Issued.

Lemma remote_events env c s :
  events (remote env c s).1 = (events s ++ [(c, respond env (events s) c)])%list.
Proof. unfold remote. by destruct (respond env (events s) c). Qed.

(** ** Paused at creation *)

(** C6.  For every platform, product and campaign parameters, every ad-set
    create request and every ad create request a build issues carries status
    ['PAUSED'], whether the build completes or aborts. *)
Theorem adsets_and_ads_created_paused env ad_account product params :
  Forall (fun e => created_paused e.1)
    (events (create_campaign env ad_account params (initial_state product)).1).
Proof.
  eapply Forall_impl; [apply create_campaign_trace|].
  intros [c r]. simpl. destruct c; simpl; try done; naive_solver.
Qed.

(** The build of the fixtures does issue such requests. *)
Example adsets_and_ads_created_paused_fixture :
  let s := (create_campaign stub_ok "act_1"
              (params_with (Some [adset_cold]) (Some [creative_with_link None]))
              (initial_state (product_abc ["https://x.test/1.jpg"] None))).1 in
  count_calls is_adset_create (events s) = 1 /\
  count_calls is_ad_create (events s) = 1.
Proof. by vm_compute. Qed.

(** ** Daily budgets *)

(** C7.  The campaign create request carries the campaign's input daily
    budget times 100 and each ad-set create request carries the daily budget
    of its ad-set entry times 100, the product being the binary64 product
    Python's [daily_budget * 100] computes; this holds for every input budget,
    positive ones included. *)
Theorem daily_budgets_times_100 env ad_account :
  (forall params s, exists req,
     events (_create_base_campaign env ad_account params s).1
       = (events s ++ [(account_create_campaign ad_account req,
                        respond env (events s)
                          (account_create_campaign ad_account req))])%list /\
     CampaignCreateRequest.daily_budget req
       = (FacebookCampaignParameters.daily_budget params * 100)%float)
  /\ (forall campaign ad_set_params s, exists req,
        events (_create_adset env campaign ad_set_params s).1
          = (events s ++ [(adset_create campaign req,
                           respond env (events s)
                             (adset_create campaign req))])%list /\
        AdSetCreateRequest.daily_budget req
          = (AdSetParameters.daily_budget ad_set_params * 100)%float)
  /\ (forall product params,
        Forall (fun e => budget_times_100 params e.1)
          (events (create_campaign env ad_account params
                     (initial_state product)).1)).
Proof.
  repeat apply conj.
  - intros params s. eexists. split.
    + exact (remote_events env _ s).
    + reflexivity.
  - intros campaign ad_set_params s. eexists. split.
    + exact (remote_events env _ s).
    + reflexivity.
  - intros product params.
    eapply Forall_impl; [apply create_campaign_trace|].
    intros [c r]. simpl. destruct c; simpl; try done; naive_solver.
Qed.

(** Budgets of 50.0 and 20.0 reach the platform as 5000.0 and 2000.0. *)
Example daily_budgets_fixture :
  omap (fun e => match e.1 with
                 | account_create_campaign _ req =>
                     Some (CampaignCreateRequest.daily_budget req)
                 | adset_create _ req => Some (AdSetCreateRequest.daily_budget req)
                 | _ => None
                 end)
    (events (create_campaign stub_ok "act_1"
               (params_with (Some [adset_cold]) (Some []))
               (initial_state (product_abc [] None))).1)
  = [5000%float; 2000%float].
Proof. by vm_compute. Qed.

(** ** Builds with an uploaded video *)

Lemma raises_at_bind {A B} (m : M A) (f : A -> M B) s :
  (forall s' a, m s = (s', Ok a) -> raises_at (f a) s') ->
  raises_at (m ≫= f) s.
Proof.
  unfold raises_at, mbind, M_bind. intros Hf.
  destruct (m s) as [s' [a|e]]; simpl; eauto.
Qed.

Lemma raises_at_bind_l {A B} (m : M A) (f : A -> M B) s :
  raises_at m s -> raises_at (m ≫= f) s.
Proof.
  unfold raises_at, mbind, M_bind. intros [e He].
  destruct (m s) as [s' [a|e']]; simpl in *; [done|eauto].
Qed.

Lemma raises_create_ads env ad_account adset creative creatives media_ids :
  MediaIds.videos media_ids <> [] ->
  raises (_create_ads env ad_account adset (Some (creative :: creatives))
            media_ids).
Proof.
  intros Hvideos s. unfold _create_ads.
  apply raises_at_bind. intros s1 l [= <- <-]. simpl.
  apply raises_at_bind_l, raises_at_bind. intros s2 [] _.
  destruct (MediaIds.videos media_ids) as [|video_id video_ids]; [done|].
  simpl. apply raises_at_bind_l.
  unfold raises_at. rewrite create_video_ad_raises. eauto.
Qed.

Lemma raises_create_adsets_and_ads env ad_account campaign params media_ids
    ad_set_params ad_sets creative creatives :
  FacebookCampaignParameters.ad_sets params = Some (ad_set_params :: ad_sets) ->
  FacebookCampaignParameters.ad_creatives params = Some (creative :: creatives) ->
  MediaIds.videos media_ids <> [] ->
  raises (create_adsets_and_ads env ad_account campaign params media_ids).
Proof.
  intros Has Hcs Hvideos s. unfold create_adsets_and_ads. rewrite Has, Hcs.
  apply raises_at_bind. intros s1 l [= <- <-]. simpl.
  apply raises_at_bind_l, raises_at_bind. intros s2 adset _.
  by apply raises_create_ads.
Qed.

(** C2.  For every creative and every uploaded video identifier, the video-ad
    step raises [AttributeError] on [thumbnail_url] (which [AdCreative] does
    not define) before any call is issued; so a build with an uploaded video,
    a first ad-set and a first creative ends in an exception, and no build
    ever records a video creative or a video ad. *)
Theorem video_ad_creation_always_fails env ad_account :
  (forall adset creative video_id s,
        AdCreative.getattr creative "thumbnail_url" = None /\
        _create_video_ad env ad_account adset creative video_id s
        = (s, Raise (AttributeError "AdCreative" "thumbnail_url")))
  /\ (forall params s s1 media_ids ad_set_params ad_sets creative creatives,
        FacebookCampaignParameters.ad_sets params
          = Some (ad_set_params :: ad_sets) ->
        FacebookCampaignParameters.ad_creatives params
          = Some (creative :: creatives) ->
        upload_media env ad_account (product_media_urls (product_obj s)) s
          = (s1, Ok media_ids) ->
        MediaIds.videos media_ids <> [] ->
        exists e, (create_campaign env ad_account params s).2 = Raise e)
  /\ (forall product params,
        Forall (fun e => image_ad_call e.1)
          (events (create_campaign env ad_account params
                     (initial_state product)).1)).
Proof.
  repeat apply conj.
  - intros. split; [reflexivity|apply create_video_ad_raises].
  - intros params s s1 media_ids ad_set_params ad_sets creative creatives
      Has Hcs Hupload Hvideos.
    change (raises_at (create_campaign env ad_account params) s).
    unfold create_campaign.
    apply raises_at_bind. intros s0 product [= <- <-].
    apply raises_at_bind. intros s1' media_ids'. rewrite Hupload.
    intros [= <- <-].
    apply raises_at_bind. intros s2 campaign _.
    apply raises_at_bind_l.
    by eapply raises_create_adsets_and_ads.
  - intros product params.
    eapply Forall_impl; [apply create_campaign_trace|].
    intros [c r]. simpl. destruct c; simpl; try done; naive_solver.
Qed.

Lemma video_ad_creation_always_fails_witness :
  exists e,
    (create_campaign stub_ok "act_1"
       (params_with (Some [adset_cold]) (Some [creative_with_link None]))
       (initial_state
          (product_abc ["https://x.test/1.jpg"] (Some ["https://x.test/1.mp4"])))).2
    = Raise e.
Proof.
  eapply (proj1 (proj2 (video_ad_creation_always_fails stub_ok "act_1"))).
  - reflexivity.
  - reflexivity.
  - vm_compute. reflexivity.
  - discriminate.
Defined.

(** ** Media uploader *)

Lemma upload_image_spec env ad_account url s :
  exists s' image_id new,
    _upload_image env ad_account url s = (s', Ok image_id) /\
    events s' = (events s ++ new)%list /\
    (forall ids,
       append_if_truthy ids image_id
       = (ids ++ omap image_upload_result new)%list) /\
    omap video_upload_result new = [] /\
    omap image_url_tried new = [url] /\
    omap video_url_tried new = [].
Proof.
  unfold _upload_image, try_except, mbind, M_bind, remote. simpl.
  destruct (respond env (events s) (http_get url)) as [body|msg]; simpl.
  - destruct (respond env _ (adimage_remote_create ad_account body))
      as [[|ch h]|msg]; simpl;
      eexists _, _, [_; _]; (split; [reflexivity|]); simpl;
      rewrite <- app_assoc; repeat split; intros; by rewrite ?app_nil_r.
  - eexists _, _, [_]; (split; [reflexivity|]); simpl.
    repeat split; intros; by rewrite ?app_nil_r.
Qed.

Lemma upload_video_spec env ad_account url s :
  exists s' video_id new,
    _upload_video env ad_account url s = (s', Ok video_id) /\
    events s' = (events s ++ new)%list /\
    (forall ids,
       append_if_truthy ids video_id
       = (ids ++ omap video_upload_result new)%list) /\
    omap image_upload_result new = [] /\
    omap image_url_tried new = [] /\
    omap video_url_tried new = [url].
Proof.
  unfold _upload_video, try_except, mbind, M_bind, remote. simpl.
  destruct (respond env (events s) (advideo_remote_create ad_account url))
    as [[|ch i]|msg]; simpl;
    eexists _, _, [_]; (split; [reflexivity|]); simpl;
    repeat split; intros; by rewrite ?app_nil_r.
Qed.

Lemma upload_images_loop env ad_account urls : forall ids s,
  exists s' ids' new,
    for_fold urls ids
      (fun ids image_url =>
         image_id ← _upload_image env ad_account image_url;
         mret (append_if_truthy ids image_id)) s = (s', Ok ids') /\
    events s' = (events s ++ new)%list /\
    ids' = (ids ++ omap image_upload_result new)%list /\
    omap video_upload_result new = [] /\
    omap image_url_tried new = urls /\
    omap video_url_tried new = [].
Proof.
  induction urls as [|url urls IH]; intros ids s; simpl.
  - exists s, ids, []. by rewrite !app_nil_r.
  - destruct (upload_image_spec env ad_account url s)
      as (s1 & image_id & new1 & Hrun & Hev & Hids & Hv & Hiu & Hvu).
    destruct (IH (append_if_truthy ids image_id) s1)
      as (s2 & ids' & new2 & Hrun2 & Hev2 & Hids2 & Hv2 & Hiu2 & Hvu2).
    exists s2, ids', (new1 ++ new2)%list.
    unfold mbind, M_bind in *. rewrite Hrun. simpl. rewrite Hrun2.
    rewrite !omap_app, Hev2, Hev, Hids2, Hids, Hv, Hv2, Hiu, Hiu2, Hvu, Hvu2.
    by rewrite !app_assoc.
Qed.

Lemma upload_videos_loop env ad_account urls : forall ids s,
  exists s' ids' new,
    for_fold urls ids
      (fun ids video_url =>
         video_id ← _upload_video env ad_account video_url;
         mret (append_if_truthy ids video_id)) s = (s', Ok ids') /\
    events s' = (events s ++ new)%list /\
    ids' = (ids ++ omap video_upload_result new)%list /\
    omap image_upload_result new = [] /\
    omap image_url_tried new = [] /\
    omap video_url_tried new = urls.
Proof.
  induction urls as [|url urls IH]; intros ids s; simpl.
  - exists s, ids, []. by rewrite !app_nil_r.
  - destruct (upload_video_spec env ad_account url s)
      as (s1 & video_id & new1 & Hrun & Hev & Hids & Hi & Hiu & Hvu).
    destruct (IH (append_if_truthy ids video_id) s1)
      as (s2 & ids' & new2 & Hrun2 & Hev2 & Hids2 & Hi2 & Hiu2 & Hvu2).
    exists s2, ids', (new1 ++ new2)%list.
    unfold mbind, M_bind in *. rewrite Hrun. simpl. rewrite Hrun2.
    rewrite !omap_app, Hev2, Hev, Hids2, Hids, Hi, Hi2, Hiu, Hiu2, Hvu, Hvu2.
    by rewrite !app_assoc.
Qed.

Lemma truthy_false_elements {A} (x : option (list A)) :
  truthy x = false -> elements_of x = [].
Proof. by destruct x as [[|? ?]|]. Qed.

Lemma upload_media_spec env ad_account media_urls s :
  upload_media_collects image_upload_result video_upload_result
    env ad_account media_urls s.
Proof.
  unfold upload_media_collects, upload_media.
  assert (exists s1 images new1,
    (if truthy (media_urls !! "images")
     then for_fold (elements_of (media_urls !! "images")) []
            (fun ids image_url =>
               image_id ← _upload_image env ad_account image_url;
               mret (append_if_truthy ids image_id))
     else mret []) s = (s1, Ok images) /\
    events s1 = (events s ++ new1)%list /\
    images = omap image_upload_result new1 /\
    omap video_upload_result new1 = [] /\
    omap image_url_tried new1 = elements_of (media_urls !! "images") /\
    omap video_url_tried new1 = [])
    as (s1 & images & new1 & Hrun1 & Hev1 & Himg1 & Hvid1 & Hiu1 & Hvu1).
  { destruct (truthy (media_urls !! "images")) eqn:Ht.
    - destruct (upload_images_loop env ad_account
                  (elements_of (media_urls !! "images")) [] s)
        as (s1 & images & new1 & ? & ? & ? & ? & ? & ?).
      by exists s1, images, new1.
    - exists s, [], []. rewrite app_nil_r, (truthy_false_elements _ Ht). done. }
  assert (exists s2 videos new2,
    (if truthy (media_urls !! "videos")
     then for_fold (elements_of (media_urls !! "videos")) []
            (fun ids video_url =>
               video_id ← _upload_video env ad_account video_url;
               mret (append_if_truthy ids video_id))
     else mret []) s1 = (s2, Ok videos) /\
    events s2 = (events s1 ++ new2)%list /\
    videos = omap video_upload_result new2 /\
    omap image_upload_result new2 = [] /\
    omap image_url_tried new2 = [] /\
    omap video_url_tried new2 = elements_of (media_urls !! "videos"))
    as (s2 & videos & new2 & Hrun2 & Hev2 & Hvid2 & Himg2 & Hiu2 & Hvu2).
  { destruct (truthy (media_urls !! "videos")) eqn:Ht.
    - destruct (upload_videos_loop env ad_account
                  (elements_of (media_urls !! "videos")) [] s1)
        as (s2 & videos & new2 & ? & ? & ? & ? & ? & ?).
      by exists s2, videos, new2.
    - exists s1, [], []. rewrite app_nil_r, (truthy_false_elements _ Ht). done. }
  exists s2, (MediaIds.mk images videos), (new1 ++ new2)%list.
  unfold mbind, M_bind in *. rewrite Hrun1. simpl. rewrite Hrun2. simpl.
  rewrite !omap_app, Hev2, Hev1, <- Himg1, <- Hvid2, Hvid1, Himg2, Hiu1, Hiu2,
    Hvu1, Hvu2.
  by rewrite !app_assoc, !app_nil_r.
Qed.

(** ** Counting create calls *)

Lemma count_calls_app p evs1 evs2 :
  count_calls p (evs1 ++ evs2) = count_calls p evs1 + count_calls p evs2.
Proof.
  induction evs1 as [|[c r] evs1 IH]; simpl; [done|]. rewrite IH. lia.
Qed.

Lemma adds_ret {A} p product (a : A) : adds p 0 product (mret a).
Proof. intros s Hs. exists s, a. repeat split; [done|lia]. Qed.

Lemma adds_bind {A B} p n1 n2 product (m : M A) (f : A -> M B) :
  adds p n1 product m -> (forall a, adds p n2 product (f a)) ->
  adds p (n1 + n2) product (m ≫= f).
Proof.
  intros Hm Hf s Hs. destruct (Hm s Hs) as (s1 & a & Hrun & Hp1 & Hc1).
  destruct (Hf a s1 Hp1) as (s2 & b & Hrun2 & Hp2 & Hc2).
  exists s2, b. unfold mbind, M_bind. rewrite Hrun, Hrun2.
  repeat split; [done|lia].
Qed.

Lemma adds_for_each {A} p n product (xs : list A) (body : A -> M unit) :
  (forall x, adds p n product (body x)) ->
  adds p (length xs * n) product (for_each xs body).
Proof.
  intros Hbody. induction xs as [|x xs IH]; simpl.
  - apply adds_ret.
  - apply adds_bind; [apply Hbody|intros _; apply IH].
Qed.

Lemma adds_strftime_now env p product :
  adds p 0 product (strftime_now env).
Proof. intros s Hs. eexists s, _. repeat split; [done|lia]. Qed.

Lemma adds_remote env p product c :
  accepts env c -> adds p (bit (p c)) product (remote env c).
Proof.
  intros Hc s Hs. destruct (Hc (events s)) as [payload Hr].
  eexists _, payload. unfold remote. rewrite Hr.
  repeat split; [done|]. simpl. rewrite count_calls_app. simpl.
  unfold bit. destruct (p c); lia.
Qed.

Lemma adds_link_or_sales p product creative :
  is_Some (HotmartProduct.urls product !! "sales") ->
  adds p 0 product (link_or_sales creative).
Proof.
  intros [url Hurl] s Hs. unfold link_or_sales.
  destruct (AdCreative.link_destination creative) as [[|ch dest]|];
    eexists s, _; unfold mbind, M_bind, get_product, getitem; simpl;
    rewrite ?Hs, ?Hurl; split_and!; try done; lia.
Qed.

Lemma adds_then_ret {A B} p n product (m : M A) (b : B) :
  adds p n product m -> adds p n product (m ;; mret b).
Proof.
  intros Hm s Hs. destruct (Hm s Hs) as (s1 & a & Hrun & Hp & Hc).
  exists s1, b. unfold mbind, M_bind. by rewrite Hrun.
Qed.

Lemma adds_iter_bind {A B} p n product (l : list A) (f : list A -> M B) :
  adds p n product (f l) -> adds p n product (iter (Some l) ≫= f).
Proof. intros Hf s Hs. exact (Hf s Hs). Qed.

Section Counting.
Variable env : Environ.
Variable ad_account : string.
Variable product : HotmartProduct.t.
Variables campaign_bit adset_bit creative_bit ad_bit : bool.

Hypothesis creates_accepted : forall c, is_create c = true -> accepts env c.
Hypothesis has_sales : is_Some (HotmartProduct.urls product !! "sales").

Let p := selects campaign_bit adset_bit creative_bit ad_bit.

Lemma adds_create_base_campaign params :
  adds p (bit campaign_bit) product (_create_base_campaign env ad_account params).
Proof.
  unfold _create_base_campaign.
  apply (adds_bind p 0 _); [apply adds_strftime_now|intros stamp].
  by apply (adds_remote env p product (account_create_campaign _ _)),
    creates_accepted.
Qed.

Lemma adds_create_adset campaign ad_set_params :
  adds p (bit adset_bit) product (_create_adset env campaign ad_set_params).
Proof.
  by apply (adds_remote env p product (adset_create _ _)), creates_accepted.
Qed.

Lemma adds_create_image_ad adset creative image_hash :
  adds p (bit creative_bit + bit ad_bit) product
    (_create_image_ad env ad_account adset creative image_hash).
Proof.
  unfold _create_image_ad.
  apply (adds_bind p 0 _); [apply adds_strftime_now|intros stamp].
  apply (adds_bind p 0 _); [by apply adds_link_or_sales|intros link].
  apply adds_bind; [|intros ad_creative].
  { by apply (adds_remote env p product (account_create_ad_creative _ _)),
      creates_accepted. }
  apply (adds_bind p 0 _); [apply adds_strftime_now|intros stamp'].
  apply adds_then_ret.
  by apply (adds_remote env p product (ad_create _ _)), creates_accepted.
Qed.

Lemma adds_create_ads adset creatives media_ids :
  MediaIds.videos media_ids = [] ->
  adds p (length creatives
          * (length (MediaIds.images media_ids) * (bit creative_bit + bit ad_bit)
             + 0))
    product
    (_create_ads env ad_account adset (Some creatives) media_ids).
Proof.
  intros Hvideos. unfold _create_ads. apply adds_iter_bind.
  apply adds_for_each. intros creative.
  apply adds_bind.
  - apply adds_for_each. intros image_hash. apply adds_create_image_ad.
  - intros _. rewrite Hvideos. apply adds_ret.
Qed.

Lemma adds_create_adsets_and_ads campaign params ad_sets creatives media_ids :
  FacebookCampaignParameters.ad_sets params = Some ad_sets ->
  FacebookCampaignParameters.ad_creatives params = Some creatives ->
  MediaIds.videos media_ids = [] ->
  adds p (length ad_sets
          * (bit adset_bit
             + length creatives
               * (length (MediaIds.images media_ids)
                  * (bit creative_bit + bit ad_bit) + 0)))
    product
    (create_adsets_and_ads env ad_account campaign params media_ids).
Proof.
  intros Has Hcs Hvideos. unfold create_adsets_and_ads. rewrite Has, Hcs.
  apply adds_iter_bind. apply adds_for_each. intros ad_set_params.
  apply adds_bind; [apply adds_create_adset|intros adset].
  by apply adds_create_ads.
Qed.

Lemma upload_media_adds_nothing media_urls s :
  product_obj s = product ->
  exists s' media_ids,
    upload_media env ad_account media_urls s = (s', Ok media_ids) /\
    product_obj s' = product /\
    count_calls p (events s') = count_calls p (events s).
Proof.
  intros Hs.
  destruct (upload_media_spec env ad_account media_urls s)
    as (s' & media_ids & new & Hrun & _).
  exists s', media_ids. split; [done|].
  assert (steps (fun s s' => product_obj s' = product_obj s /\
                             count_calls p (events s') = count_calls p (events s))
            (upload_media env ad_account media_urls)) as Hsteps.
  { apply steps_upload_media.
    - by intros s0.
    - intros s1 s2 s3 [Hp12 Hc12] [Hp23 Hc23]. split; congruence.
    - by intros line s0.
    - intros c Hc s0. unfold remote.
      destruct (respond env (events s0) c); simpl; (split; [done|]);
        rewrite count_calls_app; simpl; destruct c; simpl in *; (done || lia). }
  destruct (Hsteps s) as [Hp Hc]. rewrite Hrun in Hp, Hc. simpl in *.
  split; congruence.
Qed.

(** On a platform that accepts every create call, a build whose uploads
    produced no video completes and issues one campaign create call and, for
    each ad-set entry, one ad-set create call followed by one creative and one
    ad create call per creative and uploaded image. *)
Lemma create_campaign_counts params ad_sets creatives s1 media_ids :
  FacebookCampaignParameters.ad_sets params = Some ad_sets ->
  FacebookCampaignParameters.ad_creatives params = Some creatives ->
  upload_media env ad_account (product_media_urls product)
    (initial_state product) = (s1, Ok media_ids) ->
  MediaIds.videos media_ids = [] ->
  exists s' campaign,
    create_campaign env ad_account params (initial_state product)
    = (s', Ok campaign) /\
    count_calls p (events s')
    = bit campaign_bit
      + length ad_sets
        * (bit adset_bit
           + length creatives
             * (length (MediaIds.images media_ids)
                * (bit creative_bit + bit ad_bit))).
Proof.
  intros Has Hcs Hupload Hvideos.
  destruct (upload_media_adds_nothing (product_media_urls product)
              (initial_state product) eq_refl)
    as (s1' & media_ids' & Hrun & Hp1 & Hc1).
  rewrite Hupload in Hrun. injection Hrun as <- <-.
  destruct (adds_create_base_campaign params s1 Hp1)
    as (s2 & campaign & Hrun2 & Hp2 & Hc2).
  destruct (adds_create_adsets_and_ads campaign params ad_sets creatives
              media_ids Has Hcs Hvideos s2 Hp2)
    as (s3 & [] & Hrun3 & Hp3 & Hc3).
  exists s3, campaign. unfold create_campaign, mbind, M_bind, get_product.
  simpl. rewrite Hupload, Hrun2, Hrun3. split; [done|].
  rewrite Hc3, Hc2, Hc1. simpl. rewrite !Nat.add_0_r. done.
Qed.
End Counting.

Lemma create_campaign_cross_product_without_videos env ad_account product
    params ad_sets creatives s1 media_ids :
  (forall c, is_create c = true -> accepts env c) ->
  is_Some (HotmartProduct.urls product !! "sales") ->
  FacebookCampaignParameters.ad_sets params = Some ad_sets ->
  FacebookCampaignParameters.ad_creatives params = Some creatives ->
  upload_media env ad_account (product_media_urls product)
    (initial_state product) = (s1, Ok media_ids) ->
  MediaIds.videos media_ids = [] ->
  exists s' campaign,
    create_campaign env ad_account params (initial_state product)
    = (s', Ok campaign) /\
    count_calls is_campaign_create (events s') = 1 /\
    count_calls is_adset_create (events s') = length ad_sets /\
    count_calls is_creative_create (events s')
    = length ad_sets
      * (length creatives * length (MediaIds.images media_ids)) /\
    count_calls is_ad_create (events s')
    = length ad_sets
      * (length creatives * length (MediaIds.images media_ids)).
Proof.
  intros Hacc Hsales Has Hcs Hupload Hvideos.
  pose proof (fun b1 b2 b3 b4 =>
    create_campaign_counts env ad_account product b1 b2 b3 b4 Hacc Hsales
      params ad_sets creatives s1 media_ids Has Hcs Hupload Hvideos) as H.
  destruct (H true false false false) as (s' & campaign & Hrun & Hc1).
  exists s', campaign. split; [done|].
  destruct (H false true false false) as (? & ? & Hrun2 & Hc2).
  destruct (H false false true false) as (? & ? & Hrun3 & Hc3).
  destruct (H false false false true) as (? & ? & Hrun4 & Hc4).
  rewrite Hrun in Hrun2, Hrun3, Hrun4.
  injection Hrun2 as <- <-. injection Hrun3 as <- <-. injection Hrun4 as <- <-.
  unfold is_campaign_create, is_adset_create, is_creative_create, is_ad_create.
  rewrite Hc1, Hc2, Hc3, Hc4. simpl. split_and!; lia.
Qed.

(** C1 at the specification's own example: one ad-set, two creatives, one
    uploaded image and one uploaded video, on a platform that accepts every
    call.  The build issues one campaign, one ad-set, one creative and one ad
    create call and then ends in [AttributeError], where the claim has four
    creatives and four ads. *)
Theorem cross_product_stops_at_first_video :
  let product :=
    product_abc ["https://x.test/1.jpg"] (Some ["https://x.test/1.mp4"]) in
  let params :=
    params_with (Some [adset_cold])
      (Some [creative_with_link None;
             creative_with_link (Some "https://x.test/landing")]) in
  let r := create_campaign stub_ok "act_1" params (initial_state product) in
  (upload_media stub_ok "act_1" (product_media_urls product)
     (initial_state product)).2 = Ok (MediaIds.mk ["hash"] ["video"]) /\
  r.2 = Raise (AttributeError "AdCreative" "thumbnail_url") /\
  count_calls is_campaign_create (events r.1) = 1 /\
  count_calls is_adset_create (events r.1) = 1 /\
  count_calls is_creative_create (events r.1) = 1 /\
  count_calls is_ad_create (events r.1) = 1.
Proof. by vm_compute. Qed.

(** The same inputs without the video: two creatives and two ads. *)
Example cross_product_image_only :
  let product := product_abc ["https://x.test/1.jpg"] None in
  let params :=
    params_with (Some [adset_cold])
      (Some [creative_with_link None;
             creative_with_link (Some "https://x.test/landing")]) in
  let r := create_campaign stub_ok "act_1" params (initial_state product) in
  r.2 = Ok "campaign" /\
  count_calls is_campaign_create (events r.1) = 1 /\
  count_calls is_adset_create (events r.1) = 1 /\
  count_calls is_creative_create (events r.1) = 2 /\
  count_calls is_ad_create (events r.1) = 2.
Proof. by vm_compute. Qed.

(** ** Link of an image ad *)

(** What the code carries: a non-empty [link_destination] as it is, and the
    product's sales URL otherwise. *)
Lemma image_ad_link_carried env ad_account product params :
  Forall (fun e =>
            match e.1 with
            | account_create_ad_creative _ req =>
                exists creative d,
                  creative ∈ elements_of
                    (FacebookCampaignParameters.ad_creatives params) /\
                  CreativeCreateRequest.story req = link_data d /\
                  carried_link product creative (LinkData.link d)
            | _ => True
            end)
    (events (create_campaign env ad_account params (initial_state product)).1).
Proof.
  eapply Forall_impl; [apply create_campaign_trace|].
  intros [c r]. simpl. destruct c; simpl; try done; naive_solver.
Qed.

(** C8 at a creative whose link target key is ["product"]: the creative
    create request carries the key itself, where the claim has the mapped
    URL ["https://x.test/ABC?dp=1"]; an unset key carries the sales URL and a
    literal URL is carried as it is. *)
Theorem image_ad_link_is_the_key_itself :
  let product := product_abc ["https://x.test/1.jpg"] None in
  let links link_destination :=
    creative_links
      (events (create_campaign stub_ok "act_1"
                 (params_with (Some [adset_cold])
                    (Some [creative_with_link link_destination]))
                 (initial_state product)).1) in
  HotmartProduct.urls product !! "product" = Some "https://x.test/ABC?dp=1" /\
  links (Some "product") = ["product"] /\
  links (Some "sales") = ["sales"] /\
  links None = ["https://x.test/ABC"] /\
  links (Some "https://x.test/landing") = ["https://x.test/landing"].
Proof. by vm_compute. Qed.

(** * Further properties of the pipeline *)

(** ** Hoare rules *)

Lemma triple_conseq {A} (P P' : State -> Prop) (m : M A)
    (Q Q' : A -> State -> Prop) (E E' : Exn -> State -> Prop) :
  triple P' m Q' E' ->
  (forall s, P s -> P' s) ->
  (forall a s, Q' a s -> Q a s) ->
  (forall e s, E' e s -> E e s) ->
  triple P m Q E.
Proof.
  intros Hm HP HQ HE s Hs. specialize (Hm s (HP s Hs)).
  destruct (m s) as [s' [a|e]]; auto.
Qed.

Lemma triple_ret {A} (P : State -> Prop) (a : A) Q E :
  (forall s, P s -> Q a s) -> triple P (mret a) Q E.
Proof. intros H s Hs. by apply H. Qed.

Lemma triple_bind {A B} P (m : M A) (f : A -> M B) Q' Q E :
  triple P m Q' E -> (forall a, triple (Q' a) (f a) Q E) ->
  triple P (m ≫= f) Q E.
Proof.
  intros Hm Hf s Hs. specialize (Hm s Hs). unfold mbind, M_bind.
  destruct (m s) as [s' [a|e]]; [by apply Hf|done].
Qed.

Lemma triple_for_each {A} (I : State -> Prop) (xs : list A)
    (body : A -> M unit) E :
  (forall x, x ∈ xs -> triple I (body x) (fun _ => I) E) ->
  triple I (for_each xs body) (fun _ => I) E.
Proof.
  induction xs as [|x xs IH]; intros Hbody; simpl.
  - by apply triple_ret.
  - eapply triple_bind; [apply Hbody; left|].
    intros []. apply IH. intros y Hy. apply Hbody. by right.
Qed.

Lemma triple_remote env P c Q E :
  call_triple P c Q E -> triple P (remote env c) Q E.
Proof.
  intros Hc s Hs. destruct (Hc s Hs) as [HQ HE]. unfold remote.
  destruct (respond env (events s) c) as [payload|msg];
    [apply HQ|apply HE].
Qed.

Lemma triple_unchanged {A} P (m : M A) (Q : A -> State -> Prop) E :
  unchanged m ->
  (forall s a, P s -> (m s).2 = Ok a -> Q a s) ->
  (forall s e, P s -> (m s).2 = Raise e -> E e s) ->
  triple P m Q E.
Proof.
  intros Hm HQ HE s Hs. specialize (Hm s). specialize (HQ s). specialize (HE s).
  destruct (m s) as [s' [a|e]]; simpl in *; rewrite Hm; auto.
Qed.

Lemma unchanged_strftime_now env : unchanged (strftime_now env).
Proof. by intros s. Qed.

Lemma unchanged_get_product : unchanged get_product.
Proof. by intros s. Qed.

Lemma unchanged_iter {A} (x : option (list A)) : unchanged (iter x).
Proof. by destruct x. Qed.

Lemma unchanged_link_or_sales creative : unchanged (link_or_sales creative).
Proof.
  intros s. unfold link_or_sales, mbind, M_bind, get_product, getitem.
  destruct (AdCreative.link_destination creative) as [[|? ?]|]; simpl;
    try done; by destruct (HotmartProduct.urls (product_obj s) !! "sales").
Qed.

Lemma iter_outcome {A} (x : option (list A)) s :
  (iter x s).2 = match x with
                 | Some l => Ok l
                 | None => Raise none_not_iterable
                 end.
Proof. by destruct x. Qed.

(** An invariant that survives upload calls and printing survives
    [upload_media], which always returns. *)
Lemma triple_upload_media env ad_account media_urls (I : State -> Prop) E :
  (forall s c r, upload_call ad_account c -> I s -> I (recorded s (c, r))) ->
  (forall s line, I s -> I (printed s line)) ->
  triple I (upload_media env ad_account media_urls) (fun _ => I) E.
Proof.
  intros Hcall Hprint s Hs.
  destruct (upload_media_spec env ad_account media_urls s)
    as (s' & media_ids & new & Hrun & _).
  assert (steps (fun s s' => I s -> I s')
            (upload_media env ad_account media_urls)) as Hsteps.
  { apply steps_upload_media.
    - by intros s0.
    - intros s1 s2 s3 H12 H23. auto.
    - intros line s0. apply Hprint.
    - intros c Hc s0. unfold remote.
      destruct (respond env (events s0) c); by apply Hcall. }
  specialize (Hsteps s Hs). by rewrite Hrun in *.
Qed.

(** ** The protocol of a build

    One traversal of the pipeline, generic in the invariants that hold before
    the campaign exists ([Ibefore]), between ad-sets ([Icampaign]), inside an
    ad-set ([Iadset]) and between a creative and its ad ([Icreative]); each
    may mention the uploaded media and the ids obtained so far. *)

Section Protocol.
Variable env : Environ.
Variable ad_account : string.
Variable E : Exn -> State -> Prop.
Variable Istart : State -> Prop.
Variable Ibefore : MediaIds.t -> State -> Prop.
Variable Icampaign : MediaIds.t -> string -> State -> Prop.
Variable Iadset : MediaIds.t -> string -> string -> State -> Prop.
Variable Icreative : MediaIds.t -> string -> string -> string -> State -> Prop.

Hypothesis H_upload : forall media_urls,
  triple Istart (upload_media env ad_account media_urls) Ibefore E.
Hypothesis H_campaign : forall media_ids req,
  call_triple (Ibefore media_ids) (account_create_campaign ad_account req)
    (Icampaign media_ids) E.
Hypothesis H_adset : forall media_ids campaign req,
  AdSetCreateRequest.campaign_id req = campaign ->
  call_triple (Icampaign media_ids campaign) (adset_create campaign req)
    (Iadset media_ids campaign) E.
Hypothesis H_creative : forall media_ids campaign adset req d,
  CreativeCreateRequest.story req = link_data d ->
  LinkData.image_hash d ∈ MediaIds.images media_ids ->
  call_triple (Iadset media_ids campaign adset)
    (account_create_ad_creative ad_account req)
    (Icreative media_ids campaign adset) E.
Hypothesis H_ad : forall media_ids campaign adset creative_id req,
  AdCreateRequest.adset_id req = adset ->
  AdCreateRequest.creative_id req = creative_id ->
  call_triple (Icreative media_ids campaign adset creative_id)
    (ad_create adset req) (fun _ => Iadset media_ids campaign adset) E.
Hypothesis H_next_adset : forall media_ids campaign adset s,
  Iadset media_ids campaign adset s -> Icampaign media_ids campaign s.
Hypothesis H_link : forall media_ids campaign adset creative,
  triple (Iadset media_ids campaign adset) (link_or_sales creative)
    (fun _ => Iadset media_ids campaign adset) E.
Hypothesis E_no_adsets : forall media_ids campaign s,
  Icampaign media_ids campaign s -> E none_not_iterable s.
Hypothesis E_no_creatives : forall media_ids campaign adset s,
  Iadset media_ids campaign adset s -> E none_not_iterable s.
Hypothesis E_thumbnail : forall media_ids campaign adset s,
  Iadset media_ids campaign adset s -> E no_thumbnail_url s.

Lemma protocol_create_image_ad media_ids campaign adset creative image_hash :
  image_hash ∈ MediaIds.images media_ids ->
  triple (Iadset media_ids campaign adset)
    (_create_image_ad env ad_account adset creative image_hash)
    (fun _ => Iadset media_ids campaign adset) E.
Proof.
  intros Hin. unfold _create_image_ad.
  eapply triple_bind.
  { apply (triple_unchanged _ _ (fun _ => Iadset media_ids campaign adset));
      [apply unchanged_strftime_now|by auto|done]. }
  intros stamp. eapply triple_bind; [apply H_link|]. intros link.
  eapply triple_bind; [by eapply triple_remote, H_creative|].
  intros ad_creative. eapply triple_bind.
  { apply (triple_unchanged _ _
             (fun _ => Icreative media_ids campaign adset ad_creative));
      [apply unchanged_strftime_now|by auto|done]. }
  intros stamp'. eapply triple_bind.
  { by apply triple_remote, H_ad. }
  intros ad. by apply triple_ret.
Qed.

Lemma protocol_create_video_ad media_ids campaign adset creative video_id :
  triple (Iadset media_ids campaign adset)
    (_create_video_ad env ad_account adset creative video_id)
    (fun _ => Iadset media_ids campaign adset) E.
Proof.
  intros s Hs. rewrite create_video_ad_raises. by eapply E_thumbnail.
Qed.

Lemma protocol_create_ads media_ids campaign adset creatives :
  triple (Iadset media_ids campaign adset)
    (_create_ads env ad_account adset creatives media_ids)
    (fun _ => Iadset media_ids campaign adset) E.
Proof.
  unfold _create_ads. eapply triple_bind.
  { apply (triple_unchanged _ _ (fun _ => Iadset media_ids campaign adset));
      [apply unchanged_iter|by auto|].
    intros s e Hs. rewrite iter_outcome. destruct creatives; [done|].
    intros [= <-]. by eapply E_no_creatives. }
  intros creatives'. apply triple_for_each. intros creative _.
  eapply triple_bind.
  - apply triple_for_each. intros image_hash Hin.
    by apply protocol_create_image_ad.
  - intros []. apply triple_for_each. intros video_id _.
    apply protocol_create_video_ad.
Qed.

Lemma protocol_create_adsets_and_ads media_ids campaign params :
  triple (Icampaign media_ids campaign)
    (create_adsets_and_ads env ad_account campaign params media_ids)
    (fun _ => Icampaign media_ids campaign) E.
Proof.
  unfold create_adsets_and_ads. eapply triple_bind.
  { apply (triple_unchanged _ _ (fun _ => Icampaign media_ids campaign));
      [apply unchanged_iter|by auto|].
    intros s e Hs. rewrite iter_outcome.
    destruct (FacebookCampaignParameters.ad_sets params); [done|].
    intros [= <-]. by eapply E_no_adsets. }
  intros ad_sets. apply triple_for_each. intros ad_set_params _.
  eapply triple_bind.
  { unfold _create_adset. by apply triple_remote, H_adset. }
  intros adset.
  eapply triple_conseq;
    [apply (protocol_create_ads media_ids campaign adset)|done| |done].
  intros [] s. apply H_next_adset.
Qed.

(** The build ends normally in [Icampaign], for the media it uploaded and
    the campaign id it returns, or with an exception in [E]. *)
Lemma protocol_create_campaign params :
  triple Istart (create_campaign env ad_account params)
    (fun campaign s => exists media_ids, Icampaign media_ids campaign s) E.
Proof.
  unfold create_campaign. eapply triple_bind.
  { apply (triple_unchanged _ _ (fun _ => Istart));
      [apply unchanged_get_product|by auto|done]. }
  intros product. eapply triple_bind; [apply H_upload|]. intros media_ids.
  eapply triple_bind.
  { unfold _create_base_campaign. eapply triple_bind.
    - apply (triple_unchanged _ _ (fun _ => Ibefore media_ids));
        [apply unchanged_strftime_now|by auto|done].
    - intros stamp. apply triple_remote, H_campaign. }
  intros campaign. eapply triple_bind.
  { apply protocol_create_adsets_and_ads. }
  intros []. apply triple_ret. eauto.
Qed.
End Protocol.

(** ** Shape of a build's trace *)

Lemma campaign_open_recorded ad_account campaign evs c r :
  later_call c -> campaign_open ad_account campaign evs ->
  campaign_open ad_account campaign (evs ++ [(c, r)]).
Proof.
  intros Hc (uploads & req & rest & -> & Hup & Hrest).
  exists uploads, req, (rest ++ [(c, r)])%list.
  rewrite <- app_assoc. split; [done|]. split; [done|].
  apply Forall_app. split; [done|]. by repeat constructor.
Qed.

Lemma campaign_open_shape ad_account campaign evs out :
  campaign_open ad_account campaign evs ->
  match out with Ok handle => handle = campaign | Raise _ => True end ->
  build_shape ad_account evs out.
Proof.
  intros (uploads & req & rest & -> & Hup & Hrest) Hout.
  by exists uploads, req, (Returned campaign), rest.
Qed.

(** X1.  Whatever the platform answers, a build first issues upload calls
    only, then exactly one campaign create call, then only ad-set, creative
    and ad create calls; a rejected campaign create is the last call and its
    error is the build's, and a completed build returns the id the campaign
    create call returned. *)
Theorem build_trace_shape env ad_account product params :
  let r := create_campaign env ad_account params (initial_state product) in
  build_shape ad_account (events r.1) r.2.
Proof.
  cbv zeta.
  assert (forall campaign s e,
    campaign_open ad_account campaign (events s) ->
    build_shape ad_account (events s) (Raise e)) as Hraise.
  { intros campaign s e H. by eapply campaign_open_shape. }
  assert (forall campaign c,
    later_call c ->
    call_triple (fun s => campaign_open ad_account campaign (events s)) c
      (fun _ s => campaign_open ad_account campaign (events s))
      (fun e s => build_shape ad_account (events s) (Raise e))) as Hlater.
  { intros campaign c Hc s Hs. split.
    - intros payload. by apply (campaign_open_recorded _ _ (events s)).
    - intros msg. apply (Hraise campaign (recorded s (c, Raised msg))).
      by apply (campaign_open_recorded _ _ (events s)). }
  assert (triple (fun s => events s = [])
            (create_campaign env ad_account params)
            (fun campaign s =>
               exists _ : MediaIds.t,
                 campaign_open ad_account campaign (events s))
            (fun e s => build_shape ad_account (events s) (Raise e)))
    as Hrun.
  { apply (protocol_create_campaign env ad_account _ _
      (fun _ s => Forall (fun e => upload_call ad_account e.1) (events s))
      (fun _ campaign s => campaign_open ad_account campaign (events s))
      (fun _ campaign _ s => campaign_open ad_account campaign (events s))
      (fun _ campaign _ _ s => campaign_open ad_account campaign (events s))).
    - intros media_urls. eapply triple_conseq.
      + apply (triple_upload_media env ad_account media_urls
                 (fun s => Forall (fun e => upload_call ad_account e.1)
                             (events s))
                 (fun _ _ => False)).
        * intros s c r Hc Hs. simpl. apply Forall_app. split; [done|].
          by repeat constructor.
        * by intros s line Hs.
      + intros s Hs. simpl. rewrite Hs. constructor.
      + by intros.
      + by intros.
    - intros media_ids req s Hs. split; intros; simpl.
      + by exists (events s), req, [].
      + by exists (events s), req, (Raised msg), [].
    - intros media_ids campaign req _. by apply Hlater.
    - intros media_ids campaign adset req d _ _. by apply Hlater.
    - intros media_ids campaign adset creative_id req _ _. by apply Hlater.
    - by intros.
    - intros media_ids campaign adset creative.
      apply triple_unchanged; [apply unchanged_link_or_sales|by auto|].
      intros s e Hs _. by eapply Hraise.
    - intros media_ids campaign s. apply Hraise.
    - intros media_ids campaign adset s. apply Hraise.
    - intros media_ids campaign adset s. apply Hraise. }
  specialize (Hrun (initial_state product) eq_refl).
  destruct (create_campaign env ad_account params (initial_state product))
    as [s' [campaign|e]]; simpl in *; [|done].
  destruct Hrun as [_ Hopen]. by eapply campaign_open_shape.
Qed.

(** ** Ids are threaded through the calls *)

Lemma track_snoc t evs e : track t (evs ++ [e]) = track_step (track t evs) e.
Proof. unfold track. by rewrite fold_left_app. Qed.

Lemma threaded_snoc t evs e :
  threaded t (evs ++ [e]) <-> threaded t evs /\ threaded_step (track t evs) e.
Proof.
  revert t. induction evs as [|e' evs IH]; intros t; simpl.
  - tauto.
  - rewrite IH. unfold track. simpl. tauto.
Qed.

(** X2.  In every build, each ad-set create request is issued under, and
    names, the campaign id the campaign create call returned; each ad create
    request is issued under, and names, the id the latest ad-set create call
    returned, and references the creative id returned by the creative create
    call immediately before it. *)
Theorem build_ids_threaded env ad_account product params :
  threaded no_ids
    (events (create_campaign env ad_account params (initial_state product)).1).
Proof.
  set (T := fun s : State => threaded no_ids (events s)).
  set (ids := fun s : State => track no_ids (events s)).
  assert (triple (fun s => events s = [])
            (create_campaign env ad_account params)
            (fun _ s => exists _ : MediaIds.t, T s /\ is_Some (last_campaign (ids s)))
            (fun _ s => T s)) as Hrun.
  { eapply triple_conseq.
    - apply (protocol_create_campaign env ad_account (fun _ s => T s)
        (fun s => events s = [])
        (fun _ s => T s)
        (fun _ campaign s => T s /\ last_campaign (ids s) = Some campaign)
        (fun _ campaign adset s =>
           T s /\ last_campaign (ids s) = Some campaign /\
           last_adset (ids s) = Some adset)
        (fun _ campaign adset creative_id s =>
           T s /\ last_campaign (ids s) = Some campaign /\
           last_adset (ids s) = Some adset /\
           exists account creative_req,
             last_event (ids s)
             = Some (account_create_ad_creative account creative_req,
                     Returned creative_id))).
      + intros media_urls. eapply triple_conseq.
        * apply (triple_upload_media env ad_account media_urls T
                   (fun _ _ => False)).
          -- intros s c r Hc Hs. unfold T. simpl. apply threaded_snoc.
             split; [done|]. by destruct c.
          -- by intros s line Hs.
        * intros s Hs. unfold T. by rewrite Hs.
        * by intros.
        * by intros.
      + intros media_ids req s Hs. unfold T, ids. simpl.
        split; intros; rewrite ?threaded_snoc, ?track_snoc; by repeat split.
      + intros media_ids campaign req Hreq s (Hs & Hc). unfold T, ids. simpl.
        split; intros; rewrite ?threaded_snoc, ?track_snoc; by repeat split.
      + intros media_ids campaign adset req d _ _ s (Hs & Hc & Ha).
        unfold T, ids. simpl.
        split; intros; rewrite ?threaded_snoc, ?track_snoc;
          repeat split; eauto.
      + intros media_ids campaign adset creative_id req Hadset Hcreative
          s (Hs & Hc & Ha & Hlast).
        unfold T, ids. simpl. subst creative_id.
        split; intros; rewrite ?threaded_snoc, ?track_snoc; by repeat split.
      + intros media_ids campaign adset s (Hs & Hc & _). by split.
      + intros media_ids campaign adset creative.
        apply triple_unchanged; [apply unchanged_link_or_sales|by auto|].
        by intros s e (Hs & _).
      + by intros media_ids campaign s (Hs & _).
      + by intros media_ids campaign adset s (Hs & _).
      + by intros media_ids campaign adset s (Hs & _).
    - done.
    - intros campaign s (media_ids & Hs & Hc). exists media_ids.
      split; [done|]. by rewrite Hc.
    - done. }
  specialize (Hrun (initial_state product) eq_refl).
  destruct (create_campaign env ad_account params (initial_state product))
    as [s' [campaign|e]]; simpl in *; [|done].
  by destruct Hrun as (_ & Hs & _).
Qed.

(** The check is not vacuous: the fixture's build has ad-set and ad calls,
    and an ad issued under an ad-set that no call returned is rejected. *)
Example build_ids_threaded_fixture :
  let evs :=
    events (create_campaign stub_ok "act_1"
              (params_with (Some [adset_cold]) (Some [creative_with_link None]))
              (initial_state (product_abc ["https://x.test/1.jpg"] None))).1 in
  count_calls is_adset_create evs = 1 /\
  count_calls is_ad_create evs = 1 /\
  ~ threaded no_ids
      [(ad_create "adset_0"
          (AdCreateRequest.mk "Ad_Image_20250101" "adset_0" "creative" "PAUSED"),
        Returned "ad")].
Proof. split_and!; [by vm_compute|by vm_compute|]. by intros [[[=] _] _]. Qed.

(** ** How a build ends *)

Lemma no_failed_create_returned evs c payload :
  no_failed_create evs -> no_failed_create (evs ++ [(c, Returned payload)]).
Proof.
  intros H. apply Forall_app. split; [done|].
  repeat constructor. simpl. eauto.
Qed.

Lemma no_failed_create_upload ad_account evs c r :
  upload_call ad_account c -> no_failed_create evs ->
  no_failed_create (evs ++ [(c, r)]).
Proof.
  intros Hc H. apply Forall_app. split; [done|].
  repeat constructor. by destruct c.
Qed.

Lemma link_or_sales_returns product creative s :
  product_obj s = product ->
  is_Some (HotmartProduct.urls product !! "sales") ->
  exists link, (link_or_sales creative s).2 = Ok link.
Proof.
  intros Hs [url Hurl]. unfold link_or_sales, mbind, M_bind, get_product, getitem.
  destruct (AdCreative.link_destination creative) as [[|? ?]|]; simpl;
    rewrite ?Hs, ?Hurl; eauto.
Qed.

(** X3.  On a product whose url map has its [sales] entry, a build that
    completes had no create call rejected, and a build that fails does so in
    one of three ways only: a create call was rejected, in which case that
    call is the last one issued, no earlier create call was rejected and the
    platform's error reaches the caller; or [ad_sets]/[ad_creatives] was
    [None]; or a video ad hit [thumbnail_url].  It never fails with
    [KeyError]. *)
Theorem build_ends_in_known_ways env ad_account product params :
  is_Some (HotmartProduct.urls product !! "sales") ->
  let r := create_campaign env ad_account params (initial_state product) in
  build_outcome (events r.1) r.2.
Proof.
  intros Hsales. cbv zeta.
  set (J := fun s : State =>
              product_obj s = product /\ no_failed_create (events s)).
  assert (forall c, is_create c = true ->
    call_triple J c (fun _ => J) (fun e s => build_error (events s) e))
    as Hcreate.
  { intros c Hc s [Hp Hs]. split.
    - intros payload. split; [done|]. by apply no_failed_create_returned.
    - intros msg. by exists (events s), c. }
  assert (triple J (create_campaign env ad_account params)
            (fun _ s => exists _ : MediaIds.t, J s)
            (fun e s => build_error (events s) e)) as Hrun.
  { apply (protocol_create_campaign env ad_account _ J
             (fun _ => J) (fun _ _ => J) (fun _ _ _ => J) (fun _ _ _ _ => J)).
    - intros media_urls.
      apply (triple_upload_media env ad_account media_urls J).
      + intros s c r Hc [Hp Hs]. split; [done|].
        by eapply no_failed_create_upload.
      + by intros s line Hs.
    - intros media_ids req. by apply Hcreate.
    - intros media_ids campaign req _. by apply Hcreate.
    - intros media_ids campaign adset req d _ _. by apply Hcreate.
    - intros media_ids campaign adset creative_id req _ _. by apply Hcreate.
    - done.
    - intros media_ids campaign adset creative.
      apply triple_unchanged; [apply unchanged_link_or_sales|by auto|].
      intros s e [Hp _] He.
      destruct (link_or_sales_returns product creative s Hp Hsales) as [l Hl].
      congruence.
    - by intros media_ids campaign s [_ Hs].
    - by intros media_ids campaign adset s [_ Hs].
    - by intros media_ids campaign adset s [_ Hs]. }
  assert (J (initial_state product)) as H0 by (split; [done|constructor]).
  specialize (Hrun (initial_state product) H0).
  destruct (create_campaign env ad_account params (initial_state product))
    as [s' [campaign|e]]; simpl in *; [|done].
  by destruct Hrun as (_ & _ & Hs).
Qed.

Lemma build_ends_in_known_ways_witness :
  build_outcome
    (events (create_campaign stub_ok "act_1"
               (params_with (Some [adset_cold]) None)
               (initial_state (product_abc ["https://x.test/1.jpg"] None))).1)
    (Raise none_not_iterable).
Proof.
  apply (build_ends_in_known_ways stub_ok "act_1"
           (product_abc ["https://x.test/1.jpg"] None)
           (params_with (Some [adset_cold]) None)).
  eexists. vm_compute. reflexivity.
Defined.

(** ** Builds whose lists are [None] *)

Lemma remote_accepted env c s :
  accepts env c ->
  exists payload,
    remote env c s = (recorded s (c, Returned payload), Ok payload).
Proof.
  intros Hc. destruct (Hc (events s)) as [payload Hr].
  exists payload. unfold remote. by rewrite Hr.
Qed.

Lemma create_base_campaign_accepted env ad_account params s :
  (forall req, accepts env (account_create_campaign ad_account req)) ->
  exists req campaign,
    _create_base_campaign env ad_account params s
    = (recorded s (account_create_campaign ad_account req, Returned campaign),
       Ok campaign).
Proof.
  intros Hacc. unfold _create_base_campaign, mbind, M_bind, strftime_now.
  eexists. apply remote_accepted, Hacc.
Qed.

Lemma create_campaign_run env ad_account params s :
  create_campaign env ad_account params s
  = match upload_media env ad_account (product_media_urls (product_obj s)) s with
    | (s1, Ok media_ids) =>
        match _create_base_campaign env ad_account params s1 with
        | (s2, Ok campaign) =>
            match create_adsets_and_ads env ad_account campaign params
                    media_ids s2 with
            | (s3, Ok _) => (s3, Ok campaign)
            | (s3, Raise e) => (s3, Raise e)
            end
        | (s2, Raise e) => (s2, Raise e)
        end
    | (s1, Raise e) => (s1, Raise e)
    end.
Proof.
  unfold create_campaign, mbind, M_bind, get_product.
  destruct (upload_media _ _ _ s) as [s1 [media_ids|e]]; [|done].
  destruct (_create_base_campaign _ _ _ s1) as [s2 [campaign|e]]; [|done].
  by destruct (create_adsets_and_ads _ _ _ _ _ s2) as [s3 [[]|e]].
Qed.

(** After the uploads of a fresh build no create call has been issued. *)
Lemma upload_media_no_creates env ad_account product media_urls :
  exists s1 media_ids,
    upload_media env ad_account media_urls (initial_state product)
    = (s1, Ok media_ids) /\
    product_obj s1 = product /\
    forall b1 b2 b3 b4, count_calls (selects b1 b2 b3 b4) (events s1) = 0.
Proof.
  destruct (upload_media_adds_nothing env ad_account product true true true true
              media_urls (initial_state product) eq_refl)
    as (s1 & media_ids & Hrun & Hp & _).
  exists s1, media_ids. split; [done|]. split; [done|].
  intros b1 b2 b3 b4.
  destruct (upload_media_adds_nothing env ad_account product b1 b2 b3 b4
              media_urls (initial_state product) eq_refl)
    as (s1' & media_ids' & Hrun' & _ & Hc).
  rewrite Hrun in Hrun'. by injection Hrun' as <- <-.
Qed.

(** X4.  With [ad_sets] left at its default [None], a build on a platform
    that accepts the campaign create call creates the campaign and then
    raises [TypeError]: exactly one campaign create call and no ad-set,
    creative or ad create call is issued. *)
Theorem build_without_ad_sets env ad_account product params :
  FacebookCampaignParameters.ad_sets params = None ->
  (forall req, accepts env (account_create_campaign ad_account req)) ->
  let r := create_campaign env ad_account params (initial_state product) in
  r.2 = Raise none_not_iterable /\
  count_calls is_campaign_create (events r.1) = 1 /\
  count_calls (selects false true true true) (events r.1) = 0.
Proof.
  intros Has Hacc. cbv zeta. rewrite create_campaign_run.
  destruct (upload_media_no_creates env ad_account product
              (product_media_urls product))
    as (s1 & media_ids & Hrun & Hp & Hc).
  simpl. rewrite Hrun.
  destruct (create_base_campaign_accepted env ad_account params s1 Hacc)
    as (req & campaign & Hrun2).
  rewrite Hrun2. unfold create_adsets_and_ads. rewrite Has. simpl.
  rewrite !count_calls_app. unfold is_campaign_create. rewrite !Hc. done.
Qed.

Lemma build_without_ad_sets_witness :
  (create_campaign stub_ok "act_1" (params_with None (Some []))
     (initial_state (product_abc ["https://x.test/1.jpg"] None))).2
  = Raise none_not_iterable.
Proof.
  apply (build_without_ad_sets stub_ok "act_1"
           (product_abc ["https://x.test/1.jpg"] None)
           (params_with None (Some []))).
  - reflexivity.
  - intros req evs. by eexists.
Defined.

Lemma bind_run {A B} (m : M A) (f : A -> M B) s :
  (m ≫= f) s = match m s with
               | (s', Ok a) => f a s'
               | (s', Raise e) => (s', Raise e)
               end.
Proof. reflexivity. Qed.

Lemma create_adset_accepted env campaign ad_set_params s :
  (forall req, accepts env (adset_create campaign req)) ->
  exists req adset,
    _create_adset env campaign ad_set_params s
    = (recorded s (adset_create campaign req, Returned adset), Ok adset).
Proof. intros Hacc. eexists. apply remote_accepted, Hacc. Qed.

Lemma create_adsets_and_ads_no_creatives env ad_account campaign params
    media_ids ad_set_params ad_sets s :
  FacebookCampaignParameters.ad_sets params = Some (ad_set_params :: ad_sets) ->
  FacebookCampaignParameters.ad_creatives params = None ->
  (forall req, accepts env (adset_create campaign req)) ->
  exists req adset,
    create_adsets_and_ads env ad_account campaign params media_ids s
    = (recorded s (adset_create campaign req, Returned adset),
       Raise none_not_iterable).
Proof.
  intros Has Hcs Hacc.
  destruct (create_adset_accepted env campaign ad_set_params s Hacc)
    as (req & adset & Hrun).
  exists req, adset. unfold create_adsets_and_ads. rewrite Has, Hcs.
  rewrite bind_run. change (iter (Some (ad_set_params :: ad_sets)) s)
    with (s, Ok (ad_set_params :: ad_sets)).
  cbn [for_each]. rewrite !bind_run, Hrun. reflexivity.
Qed.

(** X5.  With [ad_creatives] left at its default [None] and at least one
    ad-set, a build on a platform that accepts the campaign and ad-set create
    calls creates the campaign and the first ad-set and then raises
    [TypeError], whether or not any media was uploaded: no further ad-set and
    no creative or ad is created.  With an empty [ad_sets] list the missing
    [ad_creatives] is never looked at and the build completes. *)
Theorem build_without_ad_creatives env ad_account product params :
  FacebookCampaignParameters.ad_creatives params = None ->
  (forall req, accepts env (account_create_campaign ad_account req)) ->
  (forall campaign req, accepts env (adset_create campaign req)) ->
  let r := create_campaign env ad_account params (initial_state product) in
  (forall ad_set_params ad_sets,
     FacebookCampaignParameters.ad_sets params = Some (ad_set_params :: ad_sets) ->
     r.2 = Raise none_not_iterable /\
     count_calls is_campaign_create (events r.1) = 1 /\
     count_calls is_adset_create (events r.1) = 1 /\
     count_calls (selects false false true true) (events r.1) = 0)
  /\ (FacebookCampaignParameters.ad_sets params = Some [] ->
      (exists campaign, r.2 = Ok campaign) /\
      count_calls is_campaign_create (events r.1) = 1 /\
      count_calls (selects false true true true) (events r.1) = 0).
Proof.
  intros Hcs Hacc Hacc'. cbv zeta. rewrite create_campaign_run.
  destruct (upload_media_no_creates env ad_account product
              (product_media_urls product))
    as (s1 & media_ids & Hrun & Hp & Hc).
  simpl. rewrite Hrun.
  destruct (create_base_campaign_accepted env ad_account params s1 Hacc)
    as (req & campaign & Hrun2).
  rewrite Hrun2. split.
  - intros ad_set_params ad_sets Has.
    destruct (create_adsets_and_ads_no_creatives env ad_account campaign
                params media_ids ad_set_params ad_sets
                (recorded s1 (account_create_campaign ad_account req,
                              Returned campaign))
                Has Hcs (Hacc' campaign))
      as (req' & adset & Hrun3).
    rewrite Hrun3. simpl. rewrite !count_calls_app.
    unfold is_campaign_create, is_adset_create. rewrite !Hc. done.
  - intros Has. unfold create_adsets_and_ads. rewrite Has. simpl.
    rewrite !count_calls_app. unfold is_campaign_create. rewrite !Hc.
    split; [by eexists|done].
Qed.

Lemma build_without_ad_creatives_witness :
  (create_campaign stub_ok "act_1" (params_with (Some [adset_cold]) None)
     (initial_state (product_abc [] None))).2
  = Raise none_not_iterable.
Proof.
  apply (proj1 (build_without_ad_creatives stub_ok "act_1"
                  (product_abc [] None) (params_with (Some [adset_cold]) None)
                  eq_refl
                  (fun req evs => ex_intro _ _ eq_refl)
                  (fun campaign req evs => ex_intro _ _ eq_refl))
           adset_cold []).
  reflexivity.
Defined.

(** ** The calls of the media uploader *)

Lemma count_failed_app evs1 evs2 :
  count_failed (evs1 ++ evs2) = count_failed evs1 + count_failed evs2.
Proof.
  induction evs1 as [|[c [payload|msg]] evs1 IH]; simpl; [done|done|].
  by rewrite IH.
Qed.

Lemma upload_image_block env ad_account url s :
  exists s' image_id block lines,
    _upload_image env ad_account url s = (s', Ok image_id) /\
    product_obj s' = product_obj s /\
    events s' = (events s ++ block)%list /\
    image_block ad_account url block /\
    (forall ids,
       append_if_truthy ids image_id
       = (ids ++ omap image_upload_result block)%list) /\
    stdout s' = (stdout s ++ lines)%list /\
    length lines = count_failed block.
Proof.
  unfold _upload_image, try_except, mbind, M_bind, remote, image_block. simpl.
  destruct (respond env (events s) (http_get url)) as [body|msg]; simpl.
  - destruct (respond env _ (adimage_remote_create ad_account body))
      as [[|ch h]|msg]; simpl.
    + eexists _, _, [_; _], []. rewrite <- app_assoc. simpl.
      split_and!; eauto; intros; by rewrite app_nil_r.
    + eexists _, _, [_; _], []. rewrite <- app_assoc. simpl.
      split_and!; eauto. by rewrite app_nil_r.
    + eexists _, _, [_; _], [_]. rewrite <- app_assoc. simpl.
      split_and!; eauto. intros; by rewrite app_nil_r.
  - eexists _, _, [_], [_]. simpl.
    split_and!; eauto. intros; by rewrite app_nil_r.
Qed.

Lemma upload_video_block env ad_account url s :
  exists s' video_id block lines,
    _upload_video env ad_account url s = (s', Ok video_id) /\
    product_obj s' = product_obj s /\
    events s' = (events s ++ block)%list /\
    video_block ad_account url block /\
    (forall ids,
       append_if_truthy ids video_id
       = (ids ++ omap video_upload_result block)%list) /\
    stdout s' = (stdout s ++ lines)%list /\
    length lines = count_failed block.
Proof.
  unfold _upload_video, try_except, mbind, M_bind, remote, video_block. simpl.
  destruct (respond env (events s) (advideo_remote_create ad_account url))
    as [[|ch i]|msg]; simpl.
  - eexists _, _, [_], []. simpl.
    split_and!; eauto; intros; by rewrite app_nil_r.
  - eexists _, _, [_], []. simpl.
    split_and!; eauto. by rewrite app_nil_r.
  - eexists _, _, [_], [_]. simpl.
    split_and!; eauto. intros; by rewrite app_nil_r.
Qed.

Lemma upload_images_blocks env ad_account urls : forall ids s,
  exists s' ids' blocks lines,
    for_fold urls ids
      (fun ids image_url =>
         image_id ← _upload_image env ad_account image_url;
         mret (append_if_truthy ids image_id)) s = (s', Ok ids') /\
    product_obj s' = product_obj s /\
    events s' = (events s ++ concat blocks)%list /\
    Forall2 (image_block ad_account) urls blocks /\
    ids' = (ids ++ omap image_upload_result (concat blocks))%list /\
    stdout s' = (stdout s ++ lines)%list /\
    length lines = count_failed (concat blocks).
Proof.
  induction urls as [|url urls IH]; intros ids s; simpl.
  - exists s, ids, [], []. simpl. rewrite !app_nil_r.
    split_and!; by try constructor.
  - destruct (upload_image_block env ad_account url s)
      as (s1 & image_id & block & lines1 & Hrun & Hp & Hev & Hb & Hids & Hout
          & Hlen).
    destruct (IH (append_if_truthy ids image_id) s1)
      as (s2 & ids' & blocks & lines2 & Hrun2 & Hp2 & Hev2 & Hbs & Hids2
          & Hout2 & Hlen2).
    exists s2, ids', (block :: blocks), (lines1 ++ lines2)%list.
    unfold mbind, M_bind in *. rewrite Hrun. simpl. rewrite Hrun2.
    rewrite omap_app, count_failed_app, length_app, Hev2, Hev, Hids2, Hids,
      Hout2, Hout, Hp2, Hp, Hlen, Hlen2, !app_assoc.
    split_and!; by try constructor.
Qed.

Lemma upload_videos_blocks env ad_account urls : forall ids s,
  exists s' ids' blocks lines,
    for_fold urls ids
      (fun ids video_url =>
         video_id ← _upload_video env ad_account video_url;
         mret (append_if_truthy ids video_id)) s = (s', Ok ids') /\
    product_obj s' = product_obj s /\
    events s' = (events s ++ concat blocks)%list /\
    Forall2 (video_block ad_account) urls blocks /\
    ids' = (ids ++ omap video_upload_result (concat blocks))%list /\
    stdout s' = (stdout s ++ lines)%list /\
    length lines = count_failed (concat blocks).
Proof.
  induction urls as [|url urls IH]; intros ids s; simpl.
  - exists s, ids, [], []. simpl. rewrite !app_nil_r.
    split_and!; by try constructor.
  - destruct (upload_video_block env ad_account url s)
      as (s1 & video_id & block & lines1 & Hrun & Hp & Hev & Hb & Hids & Hout
          & Hlen).
    destruct (IH (append_if_truthy ids video_id) s1)
      as (s2 & ids' & blocks & lines2 & Hrun2 & Hp2 & Hev2 & Hbs & Hids2
          & Hout2 & Hlen2).
    exists s2, ids', (block :: blocks), (lines1 ++ lines2)%list.
    unfold mbind, M_bind in *. rewrite Hrun. simpl. rewrite Hrun2.
    rewrite omap_app, count_failed_app, length_app, Hev2, Hev, Hids2, Hids,
      Hout2, Hout, Hp2, Hp, Hlen, Hlen2, !app_assoc.
    split_and!; by try constructor.
Qed.

Lemma upload_media_blocks env ad_account media_urls s :
  exists s' media_ids image_blocks video_blocks lines,
    upload_media_run env ad_account media_urls s s' media_ids
      image_blocks video_blocks lines.
Proof.
  unfold upload_media_run, upload_media.
  assert (exists s1 images blocks1 lines1,
    (if truthy (media_urls !! "images")
     then for_fold (elements_of (media_urls !! "images")) []
            (fun ids image_url =>
               image_id ← _upload_image env ad_account image_url;
               mret (append_if_truthy ids image_id))
     else mret []) s = (s1, Ok images) /\
    product_obj s1 = product_obj s /\
    events s1 = (events s ++ concat blocks1)%list /\
    Forall2 (image_block ad_account) (elements_of (media_urls !! "images"))
      blocks1 /\
    images = omap image_upload_result (concat blocks1) /\
    stdout s1 = (stdout s ++ lines1)%list /\
    length lines1 = count_failed (concat blocks1))
    as (s1 & images & blocks1 & lines1 & Hrun1 & Hp1 & Hev1 & Hb1 & Hid1
        & Hout1 & Hlen1).
  { destruct (truthy (media_urls !! "images")) eqn:Ht.
    - destruct (upload_images_blocks env ad_account
                  (elements_of (media_urls !! "images")) [] s)
        as (s1 & images & blocks1 & lines1 & H).
      by exists s1, images, blocks1, lines1.
    - exists s, [], [], []. rewrite (truthy_false_elements _ Ht). simpl.
      rewrite !app_nil_r. split_and!; by try constructor. }
  assert (exists s2 videos blocks2 lines2,
    (if truthy (media_urls !! "videos")
     then for_fold (elements_of (media_urls !! "videos")) []
            (fun ids video_url =>
               video_id ← _upload_video env ad_account video_url;
               mret (append_if_truthy ids video_id))
     else mret []) s1 = (s2, Ok videos) /\
    product_obj s2 = product_obj s1 /\
    events s2 = (events s1 ++ concat blocks2)%list /\
    Forall2 (video_block ad_account) (elements_of (media_urls !! "videos"))
      blocks2 /\
    videos = omap video_upload_result (concat blocks2) /\
    stdout s2 = (stdout s1 ++ lines2)%list /\
    length lines2 = count_failed (concat blocks2))
    as (s2 & videos & blocks2 & lines2 & Hrun2 & Hp2 & Hev2 & Hb2 & Hid2
        & Hout2 & Hlen2).
  { destruct (truthy (media_urls !! "videos")) eqn:Ht.
    - destruct (upload_videos_blocks env ad_account
                  (elements_of (media_urls !! "videos")) [] s1)
        as (s2 & videos & blocks2 & lines2 & H).
      by exists s2, videos, blocks2, lines2.
    - exists s1, [], [], []. rewrite (truthy_false_elements _ Ht). simpl.
      rewrite !app_nil_r. split_and!; by try constructor. }
  exists s2, (MediaIds.mk images videos), blocks1, blocks2,
    (lines1 ++ lines2)%list.
  unfold mbind, M_bind in *. rewrite Hrun1. simpl. rewrite Hrun2. simpl.
  rewrite count_failed_app, length_app, Hev2, Hev1, Hout2, Hout1, Hp2, Hp1,
    Hlen1, Hlen2, !app_assoc.
  by split_and!.
Qed.

(** X6.  Whatever the platform answers, [upload_media] returns normally and
    its calls come in one block per source URL, images first, in input
    order: for an image URL a fetch and, only if the fetch returned, one image
    create call under the account carrying exactly the fetched bytes; for a
    video URL one video create call under the account carrying the URL.  A
    failure in one block does not stop the later blocks. *)
Theorem upload_media_calls_per_url env ad_account media_urls s :
  exists s' media_ids image_blocks video_blocks,
    upload_media env ad_account media_urls s = (s', Ok media_ids) /\
    events s' = (events s ++ concat image_blocks ++ concat video_blocks)%list /\
    Forall2 (image_block ad_account) (elements_of (media_urls !! "images"))
      image_blocks /\
    Forall2 (video_block ad_account) (elements_of (media_urls !! "videos"))
      video_blocks.
Proof.
  destruct (upload_media_blocks env ad_account media_urls s)
    as (s' & media_ids & image_blocks & video_blocks & lines & Hrun & _ & Hev
        & Hib & Hvb & _).
  by exists s', media_ids, image_blocks, video_blocks.
Qed.

Lemma same_stdout_remote env c :
  steps (fun s s' => stdout s' = stdout s) (remote env c).
Proof. intros s. unfold remote. by destruct (respond env (events s) c). Qed.

(** X7.  Everything a build prints is printed by the uploads, one line per
    upload call that raised; after the uploads nothing is printed, not even
    when a create call is rejected. *)
Theorem build_prints_one_line_per_failed_upload env ad_account product params :
  let r := create_campaign env ad_account params (initial_state product) in
  let u := upload_media env ad_account (product_media_urls product)
             (initial_state product) in
  stdout r.1 = stdout u.1 /\
  length (stdout u.1) = count_failed (events u.1).
Proof.
  cbv zeta. rewrite create_campaign_run. simpl.
  destruct (upload_media_blocks env ad_account (product_media_urls product)
              (initial_state product))
    as (s1 & media_ids & image_blocks & video_blocks & lines & Hrun & _ & Hev
        & _ & _ & _ & _ & Hout & Hlen).
  rewrite Hrun. simpl in *. split; [|by rewrite Hev, Hout].
  set (R := fun s s' : State => stdout s' = stdout s).
  assert (forall s, R s s) as Hrefl by done.
  assert (forall s1 s2 s3, R s1 s2 -> R s2 s3 -> R s1 s3) as Htrans
    by (unfold R; congruence).
  pose proof (steps_create_base_campaign R Hrefl Htrans env ad_account
                (same_stdout_remote env) params s1) as H2.
  destruct (_create_base_campaign env ad_account params s1)
    as [s2 [campaign|e]]; simpl in *; [|done].
  pose proof (steps_create_adsets_and_ads R Hrefl Htrans env ad_account
                (same_stdout_remote env) campaign params media_ids s2) as H3.
  destruct (create_adsets_and_ads env ad_account campaign params media_ids s2)
    as [s3 [[]|e]]; simpl in *; unfold R in *; congruence.
Qed.

Lemma image_block_ids ad_account url block :
  image_block ad_account url block ->
  length (omap image_upload_result block) <= 1.
Proof.
  intros [[msg ->]|(body & [[|ch h]|msg] & ->)]; simpl; lia.
Qed.

Lemma video_block_ids ad_account url block :
  video_block ad_account url block ->
  length (omap video_upload_result block) <= 1.
Proof. intros [[[|ch i]|msg] ->]; simpl; lia. Qed.

Lemma image_blocks_ids ad_account urls blocks :
  Forall2 (image_block ad_account) urls blocks ->
  length (omap image_upload_result (concat blocks)) <= length urls.
Proof.
  induction 1 as [|url block urls blocks Hb _ IH]; simpl; [done|].
  rewrite omap_app, length_app.
  pose proof (image_block_ids _ _ _ Hb). lia.
Qed.

Lemma video_blocks_ids ad_account urls blocks :
  Forall2 (video_block ad_account) urls blocks ->
  length (omap video_upload_result (concat blocks)) <= length urls.
Proof.
  induction 1 as [|url block urls blocks Hb _ IH]; simpl; [done|].
  rewrite omap_app, length_app.
  pose proof (video_block_ids _ _ _ Hb). lia.
Qed.

Lemma image_upload_result_nonempty evs :
  Forall (fun h => h <> "") (omap image_upload_result evs).
Proof.
  induction evs as [|[c [[|ch h]|msg]] evs IH]; simpl; try done;
    destruct c; simpl; try done; by constructor.
Qed.

Lemma video_upload_result_nonempty evs :
  Forall (fun i => i <> "") (omap video_upload_result evs).
Proof.
  induction evs as [|[c [[|ch i]|msg]] evs IH]; simpl; try done;
    destruct c; simpl; try done; by constructor.
Qed.

(** X8.  [upload_media] returns at most one identifier per source URL of each
    kind, and never an empty identifier. *)
Theorem upload_media_ids_bounded env ad_account media_urls s :
  exists s' media_ids,
    upload_media env ad_account media_urls s = (s', Ok media_ids) /\
    length (MediaIds.images media_ids)
      <= length (elements_of (media_urls !! "images")) /\
    length (MediaIds.videos media_ids)
      <= length (elements_of (media_urls !! "videos")) /\
    Forall (fun h => h <> "") (MediaIds.images media_ids) /\
    Forall (fun i => i <> "") (MediaIds.videos media_ids).
Proof.
  destruct (upload_media_blocks env ad_account media_urls s)
    as (s' & media_ids & image_blocks & video_blocks & lines & Hrun & _ & _
        & Hib & Hvb & Himages & Hvideos & _).
  exists s', media_ids. rewrite Himages, Hvideos. split_and!.
  - done.
  - by eapply image_blocks_ids.
  - by eapply video_blocks_ids.
  - apply image_upload_result_nonempty.
  - apply video_upload_result_nonempty.
Qed.

(** ** Builds of a product without videos *)

Lemma product_media_urls_images product :
  elements_of (product_media_urls product !! "images")
  = HotmartProduct.images product.
Proof.
  unfold product_media_urls.
  by rewrite lookup_insert_ne, lookup_singleton_eq.
Qed.

Lemma product_media_urls_no_videos product :
  truthy (HotmartProduct.videos product) = false ->
  elements_of (product_media_urls product !! "videos") = [].
Proof.
  intros Hv. unfold product_media_urls. rewrite lookup_insert_eq.
  by rewrite Hv.
Qed.

(** X9.  For a product whose [videos] is [None] or empty, on a platform that
    accepts every create call, a build with list-valued [ad_sets] and
    [ad_creatives] completes: it issues one campaign create call, one ad-set
    create call per ad-set entry and, per ad-set, one creative and one ad
    create call for every pair of a creative and an image identifier that
    [upload_media] returned for the product, of which there are at most as
    many as the product has image URLs. *)
Theorem build_without_videos_completes env ad_account product params
    ad_sets creatives :
  truthy (HotmartProduct.videos product) = false ->
  (forall c, is_create c = true -> accepts env c) ->
  is_Some (HotmartProduct.urls product !! "sales") ->
  FacebookCampaignParameters.ad_sets params = Some ad_sets ->
  FacebookCampaignParameters.ad_creatives params = Some creatives ->
  exists s' campaign s1 media_ids,
    upload_media env ad_account (product_media_urls product)
      (initial_state product) = (s1, Ok media_ids) /\
    create_campaign env ad_account params (initial_state product)
    = (s', Ok campaign) /\
    MediaIds.videos media_ids = [] /\
    length (MediaIds.images media_ids)
      <= length (HotmartProduct.images product) /\
    count_calls is_campaign_create (events s') = 1 /\
    count_calls is_adset_create (events s') = length ad_sets /\
    count_calls is_creative_create (events s')
    = length ad_sets
      * (length creatives * length (MediaIds.images media_ids)) /\
    count_calls is_ad_create (events s')
    = length ad_sets
      * (length creatives * length (MediaIds.images media_ids)).
Proof.
  intros Hvideos Hacc Hsales Has Hcs.
  destruct (upload_media_blocks env ad_account (product_media_urls product)
              (initial_state product))
    as (s1 & media_ids & image_blocks & video_blocks & lines & Hrun & _ & _
        & Hib & Hvb & Himages & Hv & _).
  rewrite product_media_urls_images in Hib.
  rewrite (product_media_urls_no_videos _ Hvideos) in Hvb.
  apply Forall2_nil_inv_l in Hvb. subst video_blocks. simpl in Hv.
  destruct (create_campaign_cross_product_without_videos env ad_account
              product params ad_sets creatives s1 media_ids
              Hacc Hsales Has Hcs Hrun Hv)
    as (s' & campaign & Hbuild & H1 & H2 & H3 & H4).
  exists s', campaign, s1, media_ids.
  split_and!; try done.
  rewrite Himages. by eapply image_blocks_ids.
Qed.

(** Two ad-sets, two creatives and one uploaded image: four creatives and
    four ads. *)
Lemma build_without_videos_completes_witness :
  let r :=
    create_campaign stub_ok "act_1"
      (params_with (Some [adset_cold; adset_cold])
         (Some [creative_with_link None; creative_with_link (Some "sales")]))
      (initial_state (product_abc ["https://x.test/1.jpg"] None)) in
  r.2 = Ok "campaign" /\
  count_calls is_campaign_create (events r.1) = 1 /\
  count_calls is_adset_create (events r.1) = 2 /\
  count_calls is_creative_create (events r.1) = 4 /\
  count_calls is_ad_create (events r.1) = 4.
Proof.
  destruct (build_without_videos_completes stub_ok "act_1"
              (product_abc ["https://x.test/1.jpg"] None)
              (params_with (Some [adset_cold; adset_cold])
                 (Some [creative_with_link None;
                        creative_with_link (Some "sales")]))
              [adset_cold; adset_cold]
              [creative_with_link None; creative_with_link (Some "sales")]
              eq_refl (fun c _ evs => ex_intro _ _ eq_refl)
              (ex_intro _ "https://x.test/ABC" eq_refl) eq_refl eq_refl)
    as (s' & campaign & s1 & media_ids & Hupload & Hbuild & _ & _ & H1 & H2
        & H3 & H4).
  cbv zeta. rewrite Hbuild. simpl.
  assert (media_ids = MediaIds.mk ["hash"] []) as ->.
  { vm_compute in Hupload. by injection Hupload as <- <-. }
  split_and!; [|exact H1|exact H2|exact H3|exact H4].
  clear H1 H2 H3 H4 Hupload. vm_compute in Hbuild.
  by injection Hbuild as _ <-.
Defined.

(** ** What the requests are built from *)

(** X10.  The campaign create request is issued for the manager's account
    with the status the caller passed: unlike ad-sets and ads, a campaign is
    not forced to ['PAUSED']. *)
Theorem campaign_status_is_the_callers env ad_account product params :
  Forall (fun e => campaign_as_given ad_account params e.1)
    (events (create_campaign env ad_account params (initial_state product)).1).
Proof.
  eapply Forall_impl; [apply create_campaign_trace|].
  intros [c r]. simpl. destruct c; simpl; try done; naive_solver.
Qed.

(** A campaign passed as ['ACTIVE'] is created active. *)
Example campaign_status_active :
  omap (fun e => match e.1 with
                 | account_create_campaign _ req =>
                     Some (CampaignCreateRequest.status req)
                 | _ => None
                 end)
    (events (create_campaign stub_ok "act_1"
               (FacebookCampaignParameters.mk "Campaign"
                  CampaignObjective.OUTCOME_SALES "AUCTION" "ACTIVE" 50%float
                  BidStrategy.COST_CAP None None None None None None
                  (Some []) (Some []) None None)
               (initial_state (product_abc [] None))).1)
  = ["ACTIVE"].
Proof. by vm_compute. Qed.

(** X11.  Every ad-set create request carries the name of one of the
    [ad_sets] entries and the targeting spec built from that entry's own
    targeting, and every creative create request carries the primary text,
    headline, description and call to action of one of the [ad_creatives]
    entries. *)
Theorem requests_built_from_entries env ad_account product params :
  Forall (fun e => built_from_entries params e.1)
    (events (create_campaign env ad_account params (initial_state product)).1).
Proof.
  eapply Forall_impl; [apply create_campaign_trace|].
  intros [c r]. simpl. destruct c; simpl; try done; naive_solver.
Qed.

Lemma omap_image_upload_result_snoc_create evs c r :
  is_create c = true ->
  omap image_upload_result (evs ++ [(c, r)])%list
  = omap image_upload_result evs.
Proof.
  intros Hc. rewrite omap_app. simpl.
  destruct c; simpl in *; try done; by rewrite app_nil_r.
Qed.

(** X12.  Every creative create request of a build references an image hash
    that an image create call of the same build returned, and that hash is
    not empty. *)
Theorem creatives_use_uploaded_images env ad_account product params :
  let evs :=
    events (create_campaign env ad_account params (initial_state product)).1 in
  Forall (fun e => creative_uses (omap image_upload_result evs) e.1) evs.
Proof.
  cbv zeta.
  set (G := fun (media_ids : MediaIds.t) (s : State) =>
    (forall h, h ∈ MediaIds.images media_ids ->
               h ∈ omap image_upload_result (events s)) /\
    Forall (fun e => creative_uses (MediaIds.images media_ids) e.1) (events s)).
  set (F := fun s : State =>
    Forall (fun e => creative_uses (omap image_upload_result (events s)) e.1)
      (events s)).
  assert (forall media_ids s, G media_ids s -> F s) as HGF.
  { intros media_ids s [Hsub Hall]. unfold F.
    eapply Forall_impl; [exact Hall|].
    intros [c r]. simpl. destruct c; simpl; try done.
    destruct (CreativeCreateRequest.story req); [apply Hsub|done]. }
  assert (forall media_ids c,
    is_create c = true -> creative_uses (MediaIds.images media_ids) c ->
    call_triple (G media_ids) c (fun _ => G media_ids) (fun _ => F)) as Hcreate.
  { intros media_ids c Hc Huses s [Hsub Hall].
    assert (forall r, G media_ids (recorded s (c, r))) as Hrec.
    { intros r. split; simpl.
      - intros h Hh. rewrite omap_image_upload_result_snoc_create by done.
        by apply Hsub.
      - apply Forall_app. split; [done|]. by repeat constructor. }
    split; intros; [apply Hrec|eapply HGF, Hrec]. }
  assert (triple (fun s => events s = [])
            (create_campaign env ad_account params)
            (fun _ s => exists media_ids, G media_ids s) (fun _ => F)) as Hrun.
  { apply (protocol_create_campaign env ad_account _ _ G
             (fun media_ids _ => G media_ids)
             (fun media_ids _ _ => G media_ids)
             (fun media_ids _ _ _ => G media_ids)).
    - intros media_urls s Hs.
      destruct (upload_media_spec env ad_account media_urls s)
        as (s' & media_ids & new & Hrun & Hev & _ & _ & Himages & _).
      assert (Forall (fun e => upload_call ad_account e.1) (events s'))
        as Hup.
      { assert (triple
                  (fun s => Forall (fun e => upload_call ad_account e.1)
                              (events s))
                  (upload_media env ad_account media_urls)
                  (fun _ s => Forall (fun e => upload_call ad_account e.1)
                                (events s))
                  (fun _ _ => False)) as Htriple.
        { apply triple_upload_media.
          - intros s0 c r Hc H. simpl. apply Forall_app. split; [done|].
            by repeat constructor.
          - by intros s0 line H. }
        unfold triple in Htriple. specialize (Htriple s).
        rewrite Hrun in Htriple. apply Htriple. rewrite Hs. constructor. }
      rewrite Hrun. unfold G.
      split.
      + intros h Hh. rewrite Hev, Hs. simpl. by rewrite <- Himages.
      + eapply Forall_impl; [exact Hup|].
        intros [c r]. simpl. by destruct c.
    - intros media_ids req. by apply Hcreate.
    - intros media_ids campaign req _. by apply Hcreate.
    - intros media_ids campaign adset req d Hstory Hin.
      apply Hcreate; [done|]. simpl. by rewrite Hstory.
    - intros media_ids campaign adset creative_id req _ _. by apply Hcreate.
    - done.
    - intros media_ids campaign adset creative.
      apply triple_unchanged; [apply unchanged_link_or_sales|by auto|].
      intros s e Hs _. by eapply HGF.
    - intros media_ids campaign s. apply HGF.
    - intros media_ids campaign adset s. apply HGF.
    - intros media_ids campaign adset s. apply HGF. }
  specialize (Hrun (initial_state product) eq_refl).
  destruct (create_campaign env ad_account params (initial_state product))
    as [s' [campaign|e]]; simpl in *; [|done].
  destruct Hrun as [media_ids HG]. by eapply HGF.
Qed.

(** ** Fields the pipeline never reads *)

Lemma for_each_map_ext {A B} (g : A -> B) (xs : list A)
    (body : B -> M unit) (body' : A -> M unit) :
  (forall x s, body (g x) s = body' x s) ->
  forall s, for_each (map g xs) body s = for_each xs body' s.
Proof.
  intros Hbody. induction xs as [|x xs IH]; intros s; simpl; [done|].
  rewrite !bind_run, Hbody.
  destruct (body' x s) as [s' [[]|e]]; [apply IH|done].
Qed.

Lemma for_each_ext {A} (xs : list A) (body body' : A -> M unit) :
  (forall x s, body x s = body' x s) ->
  forall s, for_each xs body s = for_each xs body' s.
Proof.
  intros Hbody s. rewrite <- (for_each_map_ext id xs body body' Hbody s).
  by rewrite map_id.
Qed.

Lemma create_ads_forget_unused env ad_account adset creatives media_ids s :
  _create_ads env ad_account adset
    (option_map (map forget_unused_creative) creatives) media_ids s
  = _create_ads env ad_account adset creatives media_ids s.
Proof.
  destruct creatives as [creatives|]; [|done]. unfold _create_ads. simpl.
  rewrite !bind_run.
  change (iter (Some (map forget_unused_creative creatives)) s)
    with (s, Ok (map forget_unused_creative creatives)).
  change (iter (Some creatives) s) with (s, Ok creatives).
  apply for_each_map_ext. intros creative s0. rewrite !bind_run.
  rewrite (for_each_ext _ _
             (fun image_hash =>
                _create_image_ad env ad_account adset creative image_hash)).
  - reflexivity.
  - intros image_hash s1. by destruct creative.
Qed.

Lemma create_adsets_and_ads_forget_unused env ad_account campaign params
    media_ids s :
  create_adsets_and_ads env ad_account campaign (forget_unused params)
    media_ids s
  = create_adsets_and_ads env ad_account campaign params media_ids s.
Proof.
  unfold create_adsets_and_ads. simpl.
  destruct (FacebookCampaignParameters.ad_sets params) as [ad_sets|]; [|done].
  simpl. rewrite !bind_run.
  change (iter (Some (map forget_unused_adset ad_sets)) s)
    with (s, Ok (map forget_unused_adset ad_sets)).
  change (iter (Some ad_sets) s) with (s, Ok ad_sets).
  apply for_each_map_ext. intros ad_set_params s0. rewrite !bind_run.
  replace (_create_adset env campaign (forget_unused_adset ad_set_params) s0)
    with (_create_adset env campaign ad_set_params s0)
    by (by destruct ad_set_params).
  destruct (_create_adset env campaign ad_set_params s0) as [s1 [adset|e]];
    [|done].
  apply create_ads_forget_unused.
Qed.

(** X13.  A build does not depend on the campaign's [cold_audience],
    [warm_audience], [hot_audience], [placements], [conversion_tracking],
    [pixel_id] and [campaign_rules], on an ad-set's [lifetime_budget],
    [schedule] and [placements], or on a creative's [image_hash], [video_id]
    and [display_link]: clearing all of them changes neither the calls
    issued nor the outcome. *)
Theorem build_ignores_unused_fields env ad_account params s :
  create_campaign env ad_account (forget_unused params) s
  = create_campaign env ad_account params s.
Proof.
  rewrite !create_campaign_run.
  destruct (upload_media _ _ _ s) as [s1 [media_ids|e]]; [|done].
  replace (_create_base_campaign env ad_account (forget_unused params) s1)
    with (_create_base_campaign env ad_account params s1)
    by (by destruct params).
  destruct (_create_base_campaign env ad_account params s1)
    as [s2 [campaign|e]]; [|done].
  by rewrite create_adsets_and_ads_forget_unused.
Qed.

(** ** No idempotence *)

(** X14.  From any state, a build adds exactly one campaign create call to
    the trace, whether it completes or fails and whatever was built before:
    running the same build again creates a second campaign. *)
Theorem build_always_creates_one_more_campaign env ad_account params s :
  count_calls is_campaign_create
    (events (create_campaign env ad_account params s).1)
  = S (count_calls is_campaign_create (events s)).
Proof.
  set (count := fun s : State => count_calls is_campaign_create (events s)).
  set (n := count s).
  assert (forall k c, is_campaign_create c = false ->
    call_triple (fun s => count s = k) c (fun _ s => count s = k)
      (fun _ s => count s = k)) as Hother.
  { intros k c Hc s0 Hs0. unfold count in *. simpl.
    split; intros; rewrite count_calls_app; simpl; rewrite Hc; lia. }
  assert (triple (fun s => count s = n)
            (create_campaign env ad_account params)
            (fun _ s => exists _ : MediaIds.t, count s = S n)
            (fun _ s => count s = S n)) as Hrun.
  { apply (protocol_create_campaign env ad_account _ _
             (fun _ s => count s = n)
             (fun _ _ s => count s = S n)
             (fun _ _ _ s => count s = S n)
             (fun _ _ _ _ s => count s = S n)).
    - intros media_urls. eapply triple_conseq.
      + apply (triple_upload_media env ad_account media_urls
                 (fun s => count s = n) (fun _ _ => False)).
        * intros s0 c r Hc Hs0. unfold count in *. simpl.
          rewrite count_calls_app. simpl. destruct c; simpl in *; try done; lia.
        * by intros s0 line Hs0.
      + done.
      + by intros.
      + by intros.
    - intros media_ids req s0 Hs0. unfold count in *. simpl.
      split; intros; rewrite count_calls_app; simpl; lia.
    - intros media_ids campaign req _. by apply Hother.
    - intros media_ids campaign adset req d _ _. by apply Hother.
    - intros media_ids campaign adset creative_id req _ _. by apply Hother.
    - done.
    - intros media_ids campaign adset creative.
      apply triple_unchanged; [apply unchanged_link_or_sales|by auto|by auto].
    - done.
    - done.
    - done. }
  specialize (Hrun s eq_refl). fold (count (create_campaign env ad_account params s).1).
  destruct (create_campaign env ad_account params s) as [s' [campaign|e]];
    simpl in *; [by destruct Hrun|done].
Qed.

(** ** Ad-sets are created in list order *)

Lemma issued_adsets_snoc_other evs c r :
  is_adset_create c = false ->
  issued_adsets (evs ++ [(c, r)]) = issued_adsets evs.
Proof.
  intros Hc. unfold issued_adsets, adset_requests. rewrite omap_app. simpl.
  destruct c; simpl in *; try done; by rewrite app_nil_r.
Qed.

Lemma create_ads_keeps_issued_adsets env ad_account adset creatives media_ids
    (done : list (string * float * gmap string value)) :
  triple (fun s => issued_adsets (events s) = done)
    (_create_ads env ad_account adset creatives media_ids)
    (fun _ s => issued_adsets (events s) = done)
    (fun _ s => issued_adsets (events s) = done).
Proof.
  assert (forall c, is_adset_create c = false ->
    call_triple (fun s => issued_adsets (events s) = done) c
      (fun _ s => issued_adsets (events s) = done)
      (fun _ s => issued_adsets (events s) = done)) as Hother.
  { intros c Hc s Hs. simpl.
    split; intros; by rewrite issued_adsets_snoc_other. }
  apply (protocol_create_ads env ad_account _
           (fun _ _ _ s => issued_adsets (events s) = done)
           (fun _ _ _ _ s => issued_adsets (events s) = done)
           ltac:(intros; by apply Hother) ltac:(intros; by apply Hother)
           ltac:(intros; apply triple_unchanged;
                   [apply unchanged_link_or_sales|by auto|by auto])
           ltac:(done) ltac:(done) media_ids "" adset).
Qed.

Lemma create_adset_run env campaign ad_set_params s :
  _create_adset env campaign ad_set_params s
  = remote env (adset_create campaign (adset_request campaign ad_set_params)) s.
Proof. reflexivity. Qed.

Lemma issued_adsets_snoc_adset evs campaign req r :
  issued_adsets (evs ++ [(adset_create campaign req, r)])
  = (issued_adsets evs ++ [adset_request_summary req])%list.
Proof.
  unfold issued_adsets, adset_requests. by rewrite omap_app, map_app.
Qed.

Lemma adsets_loop_in_order env ad_account campaign creatives media_ids ad_sets :
  forall done s,
    issued_adsets (events s) = done ->
    let r := for_each ad_sets
               (fun ad_set_params =>
                  adset ← _create_adset env campaign ad_set_params;
                  _create_ads env ad_account adset creatives media_ids) s in
    match r.2 with
    | Ok _ =>
        issued_adsets (events r.1)
        = (done ++ map adset_entry_summary ad_sets)%list
    | Raise _ =>
        exists k,
          issued_adsets (events r.1)
          = (done ++ take k (map adset_entry_summary ad_sets))%list
    end.
Proof.
  induction ad_sets as [|a ad_sets IH]; intros done s Hs; cbv zeta.
  - simpl. by rewrite app_nil_r.
  - cbn [for_each]. rewrite !bind_run.
    rewrite create_adset_run. unfold remote.
    assert (forall r,
      issued_adsets
        (events (recorded s (adset_create campaign (adset_request campaign a),
                             r)))
      = (done ++ [adset_entry_summary a])%list) as Hrec.
    { intros r. simpl. by rewrite issued_adsets_snoc_adset, Hs. }
    destruct (respond env (events s)
                (adset_create campaign (adset_request campaign a)))
      as [adset|msg].
    + pose proof (create_ads_keeps_issued_adsets env ad_account adset creatives
                    media_ids _ _ (Hrec (Returned adset))) as Hads.
      destruct (_create_ads env ad_account adset creatives media_ids _)
        as [s2 [[]|e]].
      * specialize (IH _ s2 Hads). cbv zeta in IH.
        destruct (for_each ad_sets _ s2) as [s3 [[]|e]]; simpl in *.
        -- by rewrite IH, <- app_assoc.
        -- destruct IH as [k Hk]. exists (S k).
           by rewrite Hk, <- app_assoc.
      * exists 1. simpl in *. by rewrite Hads, take_0.
    + exists 1. simpl. rewrite take_0. apply (Hrec (Raised msg)).
Qed.

(** X15.  Ad-sets are created in the order of [params.ad_sets], one create
    call per entry, each carrying its entry's name, its daily budget times
    100 and the targeting spec of its own targeting: the requests issued are
    a prefix of the entries, and all of them when the build completes. *)
Theorem adsets_created_in_list_order env ad_account product params :
  let r := create_campaign env ad_account params (initial_state product) in
  let issued := issued_adsets (events r.1) in
  let expected :=
    map adset_entry_summary
      (elements_of (FacebookCampaignParameters.ad_sets params)) in
  match r.2 with
  | Ok _ => issued = expected
  | Raise _ => issued `prefix_of` expected
  end.
Proof.
  cbv zeta. rewrite create_campaign_run.
  assert (triple (fun s => issued_adsets (events s) = [])
            (upload_media env ad_account (product_media_urls product))
            (fun _ s => issued_adsets (events s) = [])
            (fun _ _ => False)) as Hup.
  { apply triple_upload_media; [|by intros].
    intros s c r Hc Hs. simpl. rewrite issued_adsets_snoc_other; [done|].
    by destruct c. }
  specialize (Hup (initial_state product) eq_refl). simpl.
  destruct (upload_media env ad_account (product_media_urls product)
              (initial_state product)) as [s1 [media_ids|e]]; [|done].
  assert (issued_adsets
            (events (_create_base_campaign env ad_account params s1).1) = [])
    as Hcamp.
  { unfold _create_base_campaign. rewrite bind_run. simpl.
    rewrite remote_events. by rewrite issued_adsets_snoc_other. }
  destruct (_create_base_campaign env ad_account params s1)
    as [s2 [campaign|e]]; simpl in *.
  2: { rewrite Hcamp. apply prefix_nil. }
  unfold create_adsets_and_ads. rewrite bind_run.
  destruct (FacebookCampaignParameters.ad_sets params) as [ad_sets|]; simpl.
  2: { rewrite Hcamp. apply prefix_nil. }
  pose proof (adsets_loop_in_order env ad_account campaign
                (FacebookCampaignParameters.ad_creatives params) media_ids
                ad_sets [] s2 Hcamp) as Hloop.
  cbv zeta in Hloop.
  destruct (for_each ad_sets _ s2) as [s3 [[]|e]]; simpl in *; [done|].
  destruct Hloop as [k ->]. apply prefix_take.
Qed.

(** ** The cross product, in order *)

Lemma emits_ret {A} product (a : A) : emits [] product (mret a).
Proof. intros s Hs. exists s, a. by rewrite app_nil_r. Qed.

Lemma emits_bind {A B} pairs1 pairs2 product (m : M A) (f : A -> M B) :
  emits pairs1 product m -> (forall a, emits pairs2 product (f a)) ->
  emits (pairs1 ++ pairs2) product (m ≫= f).
Proof.
  intros Hm Hf s Hs. destruct (Hm s Hs) as (s1 & a & Hrun & Hp1 & Hc1).
  destruct (Hf a s1 Hp1) as (s2 & b & Hrun2 & Hp2 & Hc2).
  exists s2, b. rewrite bind_run, Hrun, Hrun2, Hc2, Hc1.
  by rewrite app_assoc.
Qed.

Lemma emits_for_each {A} (pairs : A -> list (string * string)) product
    (xs : list A) (body : A -> M unit) :
  (forall x, emits (pairs x) product (body x)) ->
  emits (flat_map pairs xs) product (for_each xs body).
Proof.
  intros Hbody. induction xs as [|x xs IH]; simpl.
  - apply emits_ret.
  - apply emits_bind; [apply Hbody|intros _; apply IH].
Qed.

Lemma emits_unchanged {A} product (m : M A) :
  (forall s, product_obj s = product -> exists a, m s = (s, Ok a)) ->
  emits [] product m.
Proof.
  intros Hm s Hs. destruct (Hm s Hs) as [a Hrun].
  exists s, a. by rewrite app_nil_r.
Qed.

Lemma emits_remote env product c :
  accepts env c ->
  emits (match creative_pair c with Some x => [x] | None => [] end)
    product (remote env c).
Proof.
  intros Hc s Hs. destruct (remote_accepted env c s Hc) as [payload Hrun].
  exists (recorded s (c, Returned payload)), payload.
  split; [done|]. split; [done|].
  unfold creative_pairs. simpl. rewrite omap_app. simpl.
  by destruct (creative_pair c).
Qed.

Lemma flat_map_singletons {A B} (f : A -> B) (xs : list A) :
  flat_map (fun x => [f x]) xs = map f xs.
Proof. induction xs as [|x xs IH]; simpl; [done|]. by rewrite IH. Qed.

Lemma emits_remote_as env product c pairs :
  accepts env c ->
  match creative_pair c with Some x => [x] | None => [] end = pairs ->
  emits pairs product (remote env c).
Proof. intros Hc <-. by apply emits_remote. Qed.

Section CrossProduct.
Variable env : Environ.
Variable ad_account : string.
Variable product : HotmartProduct.t.
Hypothesis creates_accepted : forall c, is_create c = true -> accepts env c.
Hypothesis has_sales : is_Some (HotmartProduct.urls product !! "sales").

Lemma emits_create_image_ad adset creative image_hash :
  emits [(AdCreative.primary_text creative, image_hash)] product
    (_create_image_ad env ad_account adset creative image_hash).
Proof.
  unfold _create_image_ad.
  apply (emits_bind [] _); [by apply emits_unchanged; eauto|intros stamp].
  apply (emits_bind [] _).
  { apply emits_unchanged. intros s Hs.
    destruct (link_or_sales_returns product creative s Hs has_sales)
      as [link Hlink].
    exists link. pose proof (unchanged_link_or_sales creative s) as Hun.
    destruct (link_or_sales creative s) as [s' r]. simpl in *. congruence. }
  intros link.
  apply (emits_bind [_] []).
  { apply emits_remote_as; [by apply creates_accepted|done]. }
  intros ad_creative.
  apply (emits_bind [] _); [by apply emits_unchanged; eauto|intros stamp'].
  apply (emits_bind [] []); [|intros ad; apply emits_ret].
  apply emits_remote_as; [by apply creates_accepted|done].
Qed.

Lemma emits_iter_bind {A B} pairs (l : list A) (f : list A -> M B) :
  emits pairs product (f l) -> emits pairs product (iter (Some l) ≫= f).
Proof. intros Hf s Hs. exact (Hf s Hs). Qed.

Lemma emits_create_ads adset creatives media_ids :
  MediaIds.videos media_ids = [] ->
  emits (cross_product creatives (MediaIds.images media_ids)) product
    (_create_ads env ad_account adset (Some creatives) media_ids).
Proof.
  intros Hvideos. unfold _create_ads, cross_product. apply emits_iter_bind.
  apply emits_for_each. intros creative.
  rewrite <- (app_nil_r (map _ _)). apply emits_bind.
  - rewrite <- flat_map_singletons. apply emits_for_each. intros image_hash.
    apply emits_create_image_ad.
  - intros _. rewrite Hvideos. apply emits_ret.
Qed.

Lemma emits_create_adsets_and_ads campaign params ad_sets creatives media_ids :
  FacebookCampaignParameters.ad_sets params = Some ad_sets ->
  FacebookCampaignParameters.ad_creatives params = Some creatives ->
  MediaIds.videos media_ids = [] ->
  emits (flat_map (fun _ : AdSetParameters.t =>
                     cross_product creatives (MediaIds.images media_ids))
           ad_sets)
    product (create_adsets_and_ads env ad_account campaign params media_ids).
Proof.
  intros Has Hcs Hvideos. unfold create_adsets_and_ads. rewrite Has, Hcs.
  apply emits_iter_bind. apply emits_for_each. intros ad_set_params.
  apply (emits_bind [] _); [|intros adset; by apply emits_create_ads].
  apply emits_remote_as; [by apply creates_accepted|done].
Qed.

Lemma cross_product_build params ad_sets creatives s1 media_ids :
  FacebookCampaignParameters.ad_sets params = Some ad_sets ->
  FacebookCampaignParameters.ad_creatives params = Some creatives ->
  upload_media env ad_account (product_media_urls product)
    (initial_state product) = (s1, Ok media_ids) ->
  MediaIds.videos media_ids = [] ->
  exists s' campaign,
    create_campaign env ad_account params (initial_state product)
    = (s', Ok campaign) /\
    creative_pairs (events s')
    = flat_map (fun _ : AdSetParameters.t =>
                  cross_product creatives (MediaIds.images media_ids))
        ad_sets.
Proof.
  intros Has Hcs Hupload Hvideos.
  assert (product_obj s1 = product /\ creative_pairs (events s1) = [])
    as [Hp1 Hc1].
  { assert (triple
              (fun s => product_obj s = product /\ creative_pairs (events s) = [])
              (upload_media env ad_account (product_media_urls product))
              (fun _ s => product_obj s = product /\
                          creative_pairs (events s) = [])
              (fun _ _ => False)) as Hup.
    { apply triple_upload_media; [|by intros].
      intros s c r Hc [Hp Hs]. split; [done|].
      unfold creative_pairs in *. simpl. rewrite omap_app, Hs. simpl.
      by destruct c. }
    specialize (Hup (initial_state product) (conj eq_refl eq_refl)).
    by rewrite Hupload in Hup. }
  assert (emits [] product (_create_base_campaign env ad_account params))
    as Hcamp.
  { unfold _create_base_campaign.
    apply (emits_bind [] _); [by apply emits_unchanged; eauto|intros stamp].
    apply emits_remote_as; [by apply creates_accepted|done]. }
  destruct (Hcamp s1 Hp1) as (s2 & campaign & Hrun2 & Hp2 & Hc2).
  destruct (emits_create_adsets_and_ads campaign params ad_sets creatives
              media_ids Has Hcs Hvideos s2 Hp2)
    as (s3 & [] & Hrun3 & Hp3 & Hc3).
  exists s3, campaign. rewrite create_campaign_run. simpl.
  rewrite Hupload, Hrun2, Hrun3. split; [done|].
  by rewrite Hc3, Hc2, Hc1, app_nil_r.
Qed.
End CrossProduct.

(** X16.  For a product whose [videos] is [None] or empty, on a platform
    that accepts every create call, the image creatives of a build are
    exactly the full cross product in order: for each ad-set entry in turn,
    for each creative in list order, one creative per uploaded image in
    upload order, carrying that creative's primary text and that image's
    hash. *)
Theorem build_creatives_are_the_cross_product env ad_account product params
    ad_sets creatives :
  truthy (HotmartProduct.videos product) = false ->
  (forall c, is_create c = true -> accepts env c) ->
  is_Some (HotmartProduct.urls product !! "sales") ->
  FacebookCampaignParameters.ad_sets params = Some ad_sets ->
  FacebookCampaignParameters.ad_creatives params = Some creatives ->
  exists s' campaign s1 media_ids,
    upload_media env ad_account (product_media_urls product)
      (initial_state product) = (s1, Ok media_ids) /\
    create_campaign env ad_account params (initial_state product)
    = (s', Ok campaign) /\
    creative_pairs (events s')
    = flat_map (fun _ : AdSetParameters.t =>
                  cross_product creatives (MediaIds.images media_ids))
        ad_sets.
Proof.
  intros Hvideos Hacc Hsales Has Hcs.
  destruct (upload_media_blocks env ad_account (product_media_urls product)
              (initial_state product))
    as (s1 & media_ids & image_blocks & video_blocks & lines & Hrun & _ & _
        & _ & Hvb & _ & Hv & _).
  rewrite (product_media_urls_no_videos _ Hvideos) in Hvb.
  apply Forall2_nil_inv_l in Hvb. subst video_blocks. simpl in Hv.
  destruct (cross_product_build env ad_account product Hacc Hsales params
              ad_sets creatives s1 media_ids Has Hcs Hrun Hv)
    as (s' & campaign & Hbuild & Hpairs).
  by exists s', campaign, s1, media_ids.
Qed.

Lemma build_creatives_are_the_cross_product_witness :
  creative_pairs
    (events (create_campaign stub_ok "act_1"
               (params_with (Some [adset_cold; adset_cold])
                  (Some [creative_with_link None]))
               (initial_state
                  (product_abc ["https://x.test/1.jpg"; "https://x.test/2.jpg"]
                     None))).1)
  = [("text", "hash"); ("text", "hash"); ("text", "hash"); ("text", "hash")].
Proof.
  destruct (build_creatives_are_the_cross_product stub_ok "act_1"
              (product_abc ["https://x.test/1.jpg"; "https://x.test/2.jpg"] None)
              (params_with (Some [adset_cold; adset_cold])
                 (Some [creative_with_link None]))
              [adset_cold; adset_cold] [creative_with_link None]
              eq_refl (fun c _ evs => ex_intro _ _ eq_refl)
              (ex_intro _ "https://x.test/ABC" eq_refl) eq_refl eq_refl)
    as (s' & campaign & s1 & media_ids & Hupload & Hbuild & Hpairs).
  rewrite Hbuild. simpl. rewrite Hpairs.
  vm_compute in Hupload. by injection Hupload as <- <-.
Defined.

(** ** Failed uploads are isolated *)

Lemma count_events_app p evs1 evs2 :
  count_events p (evs1 ++ evs2) = count_events p evs1 + count_events p evs2.
Proof.
  induction evs1 as [|e evs1 IH]; simpl; [done|]. rewrite IH. lia.
Qed.

(** Each image source URL is accounted for once: as an identifier, as a
    failure or as an empty identifier; and it touches no video tally. *)
Lemma image_block_accounts ad_account url block :
  image_block ad_account url block ->
  length (omap image_upload_result block)
  + count_events image_upload_failed block
  + count_events image_upload_empty block = 1 /\
  length (omap video_upload_result block) = 0 /\
  count_events video_upload_failed block = 0 /\
  count_events video_upload_empty block = 0.
Proof. by intros [[msg ->]|(body & [[|ch h]|msg] & ->)]. Qed.

Lemma video_block_accounts ad_account url block :
  video_block ad_account url block ->
  length (omap video_upload_result block)
  + count_events video_upload_failed block
  + count_events video_upload_empty block = 1 /\
  length (omap image_upload_result block) = 0 /\
  count_events image_upload_failed block = 0 /\
  count_events image_upload_empty block = 0.
Proof. by intros [[[|ch i]|msg] ->]. Qed.

Lemma image_blocks_account ad_account urls blocks :
  Forall2 (image_block ad_account) urls blocks ->
  length (omap image_upload_result (concat blocks))
  + count_events image_upload_failed (concat blocks)
  + count_events image_upload_empty (concat blocks) = length urls /\
  length (omap video_upload_result (concat blocks)) = 0 /\
  count_events video_upload_failed (concat blocks) = 0 /\
  count_events video_upload_empty (concat blocks) = 0.
Proof.
  induction 1 as [|url block urls blocks Hb _ IH]; simpl; [done|].
  rewrite !omap_app, !length_app, !count_events_app.
  pose proof (image_block_accounts _ _ _ Hb). lia.
Qed.

Lemma video_blocks_account ad_account urls blocks :
  Forall2 (video_block ad_account) urls blocks ->
  length (omap video_upload_result (concat blocks))
  + count_events video_upload_failed (concat blocks)
  + count_events video_upload_empty (concat blocks) = length urls /\
  length (omap image_upload_result (concat blocks)) = 0 /\
  count_events image_upload_failed (concat blocks) = 0 /\
  count_events image_upload_empty (concat blocks) = 0.
Proof.
  induction 1 as [|url block urls blocks Hb _ IH]; simpl; [done|].
  rewrite !omap_app, !length_app, !count_events_app.
  pose proof (video_block_accounts _ _ _ Hb). lia.
Qed.

(** C3, as amended.  For every platform, every [media_urls] and every state,
    [upload_media] returns normally: it tries every image and video source
    URL in order, a failed upload contributes nothing, and the result holds
    exactly the non-empty identifiers of the uploads that succeeded, in
    order; every source URL is accounted for once, as an identifier, as a
    failed upload or as an upload that returned an empty identifier.  So,
    with two image URLs of which exactly one upload fails and the other
    returns a non-empty identifier, the result has exactly one image
    identifier; and a result without identifiers is a normal outcome (as on
    the platform whose only image fetch fails). *)
Theorem upload_media_isolates_failures :
  (forall env ad_account media_urls s,
     exists s' media_ids new,
       upload_media env ad_account media_urls s = (s', Ok media_ids) /\
       events s' = (events s ++ new)%list /\
       omap image_url_tried new = elements_of (media_urls !! "images") /\
       omap video_url_tried new = elements_of (media_urls !! "videos") /\
       MediaIds.images media_ids = omap image_upload_result new /\
       MediaIds.videos media_ids = omap video_upload_result new /\
       length (elements_of (media_urls !! "images"))
       = length (MediaIds.images media_ids)
         + count_events image_upload_failed new
         + count_events image_upload_empty new /\
       length (elements_of (media_urls !! "videos"))
       = length (MediaIds.videos media_ids)
         + count_events video_upload_failed new
         + count_events video_upload_empty new /\
       (forall url1 url2,
          elements_of (media_urls !! "images") = [url1; url2] ->
          count_events image_upload_failed new = 1 ->
          count_events image_upload_empty new = 0 ->
          length (MediaIds.images media_ids) = 1))
  /\ (upload_media stub_one_bad_image "act_1"
        {["images" := ["https://x.test/bad.jpg"]]}
        (initial_state (product_abc [] None))).2
     = Ok (MediaIds.mk [] []).
Proof.
  split; [|by vm_compute].
  intros env ad_account media_urls s.
  destruct (upload_media_spec env ad_account media_urls s)
    as (s' & media_ids & new & Hrun & Hev & Hiu & Hvu & Himages & Hvideos).
  destruct (upload_media_blocks env ad_account media_urls s)
    as (s'' & media_ids' & image_blocks & video_blocks & lines & Hrun' & _
        & Hev' & Hib & Hvb & _).
  rewrite Hrun in Hrun'. injection Hrun' as <- <-.
  rewrite Hev in Hev'. apply app_inv_head in Hev'.
  destruct (image_blocks_account _ _ _ Hib) as (Hi1 & Hi2 & Hi3 & Hi4).
  destruct (video_blocks_account _ _ _ Hvb) as (Hv1 & Hv2 & Hv3 & Hv4).
  assert (length (elements_of (media_urls !! "images"))
          = length (MediaIds.images media_ids)
            + count_events image_upload_failed new
            + count_events image_upload_empty new) as Hlaw_images.
  { rewrite Himages, Hev', !omap_app, !length_app, !count_events_app. lia. }
  assert (length (elements_of (media_urls !! "videos"))
          = length (MediaIds.videos media_ids)
            + count_events video_upload_failed new
            + count_events video_upload_empty new) as Hlaw_videos.
  { rewrite Hvideos, Hev', !omap_app, !length_app, !count_events_app. lia. }
  exists s', media_ids, new. split_and!; try done.
  intros url1 url2 Hurls Hfailed Hempty.
  rewrite Hurls in Hlaw_images. simpl in Hlaw_images. lia.
Qed.

(** The two image URLs of [stub_one_bad_image]: the first fetch fails, the
    second upload returns ["hash"], and the result has one identifier. *)
Lemma upload_media_isolates_failures_witness :
  exists s' media_ids,
    upload_media stub_one_bad_image "act_1"
      {["images" := ["https://x.test/bad.jpg"; "https://x.test/good.jpg"]]}
      (initial_state (product_abc [] None)) = (s', Ok media_ids) /\
    length (MediaIds.images media_ids) = 1.
Proof.
  destruct (proj1 upload_media_isolates_failures stub_one_bad_image "act_1"
              {["images" := ["https://x.test/bad.jpg"; "https://x.test/good.jpg"]]}
              (initial_state (product_abc [] None)))
    as (s' & media_ids & new & Hrun & Hev & _ & _ & _ & _ & _ & _ & Hone).
  exists s', media_ids. split; [done|].
  assert (new = [(http_get "https://x.test/bad.jpg", Raised "404 Not Found");
                 (http_get "https://x.test/good.jpg", Returned "body");
                 (adimage_remote_create "act_1" "body", Returned "hash")])
    as Hnew.
  { vm_compute in Hrun. injection Hrun as <- <-. vm_compute in Hev.
    symmetry. exact Hev. }
  apply (Hone "https://x.test/bad.jpg" "https://x.test/good.jpg").
  - by vm_compute.
  - by rewrite Hnew.
  - by rewrite Hnew.
Defined.

(** C3, as stated, fails: an image upload that succeeds with an empty
    ['hash'] is recorded, yet [if image_id:] leaves its identifier out. *)
Lemma upload_media_drops_empty_identifier :
  ~ upload_media_collects image_upload_returned video_upload_returned
      stub_empty_hash "act_1" {["images" := ["https://x.test/1.jpg"]]}
      (initial_state (product_abc [] None)).
Proof.
  intros (s' & media_ids & new & Hrun & Hev & _ & _ & Himages & _).
  vm_compute in Hrun. injection Hrun as <- <-.
  simpl in Hev. subst new. discriminate Himages.
Qed.
